(** * Lean block parser of [scripts/extract_sublemmas.py]: model and properties

    The Python module segments Lean-like source text into declaration
    blocks by indentation and bracket balance, splits every block into a
    statement and a proof, and derives two text transformations from the
    block list (lemma composition and proof stubbing).

    The development follows the module top-down: Python's [str] methods,
    the fragment of the [re] library the module calls, the
    [LeanCodeParser] class, the module-level tools, and finally the
    properties. *)

From Stdlib Require Import Ascii String.
From Stdlib Require Import List Bool Arith NArith ZArith Lia Sorted.
Import ListNotations.

(** ** Strings

    A Python [str] is a sequence of Unicode code points.  A code point is
    a number; nothing below depends on the upper bound [0x10FFFF]. *)

Definition char := N.
Definition str := list char.

Definition ch (a : ascii) : char := N_of_ascii a.
Arguments ch a%_char.

Definition lit (s : string) : str := map N_of_ascii (list_ascii_of_string s).
Arguments lit s%_string.

Module Py.

(** [c.isspace()] for one code point, which is also the class the
    argument-less [strip], [lstrip], [rstrip] and [split] remove and the
    class [\s] of a [str] pattern. *)
Definition isspace (c : char) : bool :=
  ((9 <=? c) && (c <=? 13) || (28 <=? c) && (c <=? 32)
   || (c =? 133) || (c =? 160) || (c =? 5760)
   || (8192 <=? c) && (c <=? 8202)
   || (c =? 8232) || (c =? 8233) || (c =? 8239) || (c =? 8287)
   || (c =? 12288))%N.

(** Line boundaries of [str.splitlines]. *)
Definition islinebreak (c : char) : bool :=
  ((10 <=? c) && (c <=? 13) || (28 <=? c) && (c <=? 30)
   || (c =? 133) || (c =? 8232) || (c =? 8233))%N.

Fixpoint str_eqb (a b : str) : bool :=
  match a, b with
  | [], [] => true
  | x :: a', y :: b' => N.eqb x y && str_eqb a' b'
  | _, _ => false
  end.

(** [x in l] for a list of strings. *)
Definition mem (x : str) (l : list str) : bool := existsb (str_eqb x) l.

(** [c in s] for a one-character string [c]. *)
Definition char_in (c : char) (s : str) : bool := existsb (N.eqb c) s.

Fixpoint dropwhile (f : char -> bool) (s : str) : str :=
  match s with
  | [] => []
  | c :: t => if f c then dropwhile f t else s
  end.

Definition lstrip (s : str) : str := dropwhile isspace s.
Definition rstrip (s : str) : str := rev (dropwhile isspace (rev s)).
Definition strip (s : str) : str := rstrip (lstrip s).

(** [s.lstrip(" ")]. *)
Definition lstrip_spaces (s : str) : str := dropwhile (N.eqb (ch " ")) s.

Fixpoint startswith (p s : str) : bool :=
  match p, s with
  | [], _ => true
  | x :: p', y :: s' => N.eqb x y && startswith p' s'
  | _ :: _, [] => false
  end.

(** [s.startswith((p1, p2, ...))]. *)
Definition startswith_any (ps : list str) (s : str) : bool :=
  existsb (fun p => startswith p s) ps.

(** [s.find(sub)], with [None] for [-1]. *)
Fixpoint find (sub s : str) : option nat :=
  if startswith sub s then Some 0
  else match s with
       | [] => None
       | _ :: t => option_map S (find sub t)
       end.

(** [sub in s]. *)
Definition contains (sub s : str) : bool :=
  match find sub s with Some _ => true | None => false end.

(** [s.replace(old, new, 1)]. *)
Definition replace1 (old new s : str) : str :=
  match find old s with
  | Some i => firstn i s ++ new ++ skipn (i + length old) s
  | None => s
  end.

(** [s.split(sep, maxsplit=1)] for a non-empty [sep]. *)
Definition split1 (sep s : str) : list str :=
  match find sep s with
  | Some i => [firstn i s; skipn (i + length sep) s]
  | None => [s]
  end.

(** [s.split()]: the maximal runs of non-whitespace characters. *)
Fixpoint split (s : str) : list str :=
  match s with
  | [] => []
  | c :: t =>
      if isspace c then split t
      else match t with
           | [] => [[c]]
           | d :: _ =>
               if isspace d then [c] :: split t
               else match split t with
                    | [] => [[c]]
                    | w :: ws => (c :: w) :: ws
                    end
           end
  end.

(** [s.splitlines()]: a line ends at a boundary character, ["\r\n"] counts
    as one boundary, and a final boundary opens no further line. *)
Fixpoint splitlines (s : str) : list str :=
  match s with
  | [] => []
  | c :: t =>
      if islinebreak c then
        match t with
        | d :: t' =>
            if ((c =? 13) && (d =? 10))%N then [] :: splitlines t'
            else [] :: splitlines t
        | [] => [[]]
        end
      else match splitlines t with
           | [] => [[c]]
           | l :: ls => (c :: l) :: ls
           end
  end.

(** [sep.join(l)]. *)
Fixpoint join (sep : str) (l : list str) : str :=
  match l with
  | [] => []
  | [x] => x
  | x :: rest => x ++ sep ++ join sep rest
  end.

(** [" " * n]. *)
Definition spaces (n : nat) : str := repeat (ch " ") n.

(** [l[:n]] for a Python integer [n]: a negative bound counts from the
    end. *)
Definition slice_to {A} (n : Z) (l : list A) : list A :=
  if (0 <=? n)%Z then firstn (Z.to_nat n) l
  else firstn (length l - Z.to_nat (- n)) l.

(** [sorted(l, key=key, reverse=True)]: descending and stable. *)
Fixpoint insert_desc {A} (key : A -> Z) (x : A) (l : list A) : list A :=
  match l with
  | [] => [x]
  | y :: rest =>
      if (key x <=? key y)%Z then y :: insert_desc key x rest
      else x :: l
  end.

Definition sorted_desc {A} (key : A -> Z) (l : list A) : list A :=
  fold_left (fun acc x => insert_desc key x acc) l [].

End Py.

(** ** The fragment of [re] the module uses

    A backtracking matcher with Python's priorities: alternatives are
    tried left to right, [*] takes as much as it can before giving back,
    [*?] as little as it can.  The continuation receives the text that is
    left after the part matched so far. *)

Module Re.

Inductive regex :=
| Eps                           (* the empty pattern *)
| Chr (c : char)                (* a literal character *)
| Any                           (* [.] under [re.DOTALL] *)
| NotIn (cs : str)              (* [[^...]] *)
| Space                         (* [\s] *)
| Seq (r1 r2 : regex)
| Alt (r1 r2 : regex)
| Star (r : regex)              (* [r*] *)
| LazyStar (r : regex).         (* [r*?] *)

(** [r+] *)
Definition Plus (r : regex) : regex := Seq r (Star r).

(** A literal string as a pattern. *)
Fixpoint Lit (s : str) : regex :=
  match s with
  | [] => Eps
  | [c] => Chr c
  | c :: t => Seq (Chr c) (Lit t)
  end.

Fixpoint rmatch (r : regex) (s : str) (k : str -> option str)
  {struct r} : option str :=
  match r with
  | Eps => k s
  | Chr c =>
      match s with
      | d :: t => if N.eqb c d then k t else None
      | [] => None
      end
  | Any => match s with _ :: t => k t | [] => None end
  | NotIn cs =>
      match s with
      | d :: t => if Py.char_in d cs then None else k t
      | [] => None
      end
  | Space =>
      match s with
      | d :: t => if Py.isspace d then k t else None
      | [] => None
      end
  | Seq r1 r2 => rmatch r1 s (fun s' => rmatch r2 s' k)
  | Alt r1 r2 =>
      match rmatch r1 s k with
      | Some x => Some x
      | None => rmatch r2 s k
      end
  | Star r1 =>
      (fix loop (n : nat) (s : str) : option str :=
         match n with
         | O => k s
         | S n' =>
             match rmatch r1 s (fun s' =>
                     if length s' <? length s then loop n' s' else None) with
             | Some x => Some x
             | None => k s
             end
         end) (length s) s
  | LazyStar r1 =>
      (fix loop (n : nat) (s : str) : option str :=
         match n with
         | O => k s
         | S n' =>
             match k s with
             | Some x => Some x
             | None => rmatch r1 s (fun s' =>
                         if length s' <? length s then loop n' s' else None)
             end
         end) (length s) s
  end.

(** [re.match(r, s)]: what is left of [s] after the match at its start. *)
Definition match_rest (r : regex) (s : str) : option str :=
  rmatch r s (fun rest => Some rest).

(** [re.match(r, s).group(0)]. *)
Definition match_group (r : regex) (s : str) : option str :=
  match match_rest r s with
  | Some rest => Some (firstn (length s - length rest) s)
  | None => None
  end.

(** [re.sub(r, repl, s)] for a pattern that matches no empty string: the
    leftmost matches, none overlapping, each replaced by [repl]. *)
Fixpoint sub_fuel (n : nat) (r : regex) (repl s : str) : str :=
  match n with
  | O => s
  | S n' =>
      match s with
      | [] => []
      | c :: t =>
          match match_rest r s with
          | Some rest =>
              if length rest <? length s
              then repl ++ sub_fuel n' r repl rest
              else c :: sub_fuel n' r repl t
          | None => c :: sub_fuel n' r repl t
          end
      end
  end.

Definition sub (r : regex) (repl s : str) : str :=
  sub_fuel (length s) r repl s.

(** [re.sub("^" + r, repl, s, count=1)]: without [re.MULTILINE] the
    anchor holds at the start of [s] only. *)
Definition sub_start (r : regex) (repl s : str) : str :=
  match match_rest r s with
  | Some rest => repl ++ rest
  | None => s
  end.

(** [re.split(r, s, maxsplit=1)[0]] for a pattern that matches no empty
    string: the text before the leftmost match, all of [s] without one. *)
Fixpoint split1_head (r : regex) (s : str) : str :=
  match match_rest r s with
  | Some _ => []
  | None =>
      match s with
      | [] => []
      | c :: t => c :: split1_head r t
      end
  end.

End Re.

(** ** Results of calls that can raise *)

Inductive exn := IndexError | AssertionError.

(** [NoFuel] is no Python outcome: it marks a loop of the model that was
    cut at its bound before the source's loop condition failed. *)
Inductive res (A : Type) :=
| Ret (a : A)
| Raise (e : exn)
| NoFuel.
Arguments Ret {A} a.
Arguments Raise {A} e.
Arguments NoFuel {A}.

Definition bind {A B} (m : res A) (f : A -> res B) : res B :=
  match m with
  | Ret a => f a
  | Raise e => Raise e
  | NoFuel => NoFuel
  end.

Notation "x <- m ;; k" := (bind m (fun x => k))
  (at level 61, m at next level, right associativity).

(** ** Constants and patterns of the module *)

Definition nl : char := 10%N.
Definition middle_dot : char := 183%N.

Definition DOT_KEYS : list str := [lit "."; [middle_dot]].
Definition DOT_KEYS_TUPLE : list str := [lit "."; [middle_dot]].

Module Pat.
Import Re.

(** [r"/-.*?(--/|-/)"] *)
Definition block_comment : regex :=
  Seq (Lit (lit "/-"))
      (Seq (LazyStar Any) (Alt (Lit (lit "--/")) (Lit (lit "-/")))).

(** [r"--"] *)
Definition line_comment : regex := Lit (lit "--").

(** [r"\([^()]*?\)|{[^{}]*?}|\[[^\[\]]*?\]"] *)
Definition bracketed : regex :=
  Alt (Seq (Chr (ch "(")) (Seq (LazyStar (NotIn (lit "()"))) (Chr (ch ")"))))
      (Alt (Seq (Chr (ch "{")) (Seq (LazyStar (NotIn (lit "{}"))) (Chr (ch "}"))))
           (Seq (Chr (ch "[")) (Seq (LazyStar (NotIn (lit "[]"))) (Chr (ch "]"))))).

(** [r"^([^ :\{\[\(]+)"], the anchor being left to [re.match]. *)
Definition name_run : regex := Plus (NotIn (lit " :{[(")).

(** [r"^[^\n]*"] without its anchor. *)
Definition first_line : regex := Star (NotIn [nl]).

(** [r"^(?:\s*\n)+"] without its anchor. *)
Definition blank_lines : regex := Plus (Seq (Star Space) (Chr nl)).

End Pat.

(** ** class LeanCodeParser *)

Record LeanCodeParser := {
  original_code : str;
  original_lines : list str;
  cleaned_lines : list str;
  cleaned_code : str
}.

(** The [keys] argument is never read by the source either. *)
Definition formatting (code : str) : str :=
  let ret := Re.sub (Re.Lit (lit ":=")) (lit " := ") code in
  let ret := Re.sub (Re.Lit (lit "  :=")) (lit " :=") ret in
  let ret := Re.sub (Re.Lit (lit ":=  ")) (lit ":= ") ret in
  let ret := Re.sub (Re.Lit (lit ":= " ++ [nl])) (lit ":=" ++ [nl]) ret in
  ret.

Definition strip_brackets (code : str) : str :=
  Re.sub Pat.bracketed [] code.

(** The truth value of a string. *)
Definition nonempty (s : str) : bool :=
  match s with [] => false | _ :: _ => true end.

(** One round of the [for line in tmp_code.splitlines()] loop: the lines
    it appends to [cleaned]. *)
Definition clean_line (line : str) : list str :=
  let stripped_line := Py.rstrip (Re.split1_head Pat.line_comment line) in
  if negb (nonempty (Py.strip stripped_line)) then []
  else
    let noind_stripped := Py.lstrip stripped_line in
    if Py.startswith_any [lit ". "; [middle_dot; ch " "]] noind_stripped then
      let indent := length stripped_line - length noind_stripped in
      let dot_line := Py.spaces indent ++ lit "." in
      let rest_line := Py.spaces (indent + 2) ++ skipn 2 noind_stripped in
      dot_line :: (if nonempty (Py.strip rest_line) then [rest_line] else [])
    else [stripped_line].

Definition strip_comments_and_blank_lines (code : str) : list str :=
  let tmp_code := Re.sub Pat.block_comment [] code in
  let tmp_code := formatting tmp_code in
  flat_map clean_line (Py.splitlines tmp_code).

(** [LeanCodeParser(code)] *)
Definition new_parser (code : str) : LeanCodeParser :=
  let cleaned := strip_comments_and_blank_lines code in
  {| original_code := code;
     original_lines := Py.splitlines code;
     cleaned_lines := cleaned;
     cleaned_code := Py.join [nl] cleaned |}.

Definition get_indent (line : str) : nat :=
  length line - length (Py.lstrip_spaces line).

(** *** extract_headers *)

Record Headers := {
  import_list : list str;
  open_list : list str;
  set_option_list : list str;
  import_lines : list str;
  open_lines : list str;
  set_option_lines : list str
}.

(** [l.remove(x)] when [x in l]: the first occurrence goes. *)
Fixpoint remove_first (x : str) (l : list str) : list str :=
  match l with
  | [] => []
  | y :: rest => if Py.str_eqb y x then rest else y :: remove_first x rest
  end.

Fixpoint headers_loop (ls : list str) (h : Headers) : res Headers :=
  match ls with
  | [] => Ret h
  | line :: rest =>
      match Py.split line with
      | [] => Raise IndexError   (* tokens[0] *)
      | key :: args =>
          if Py.str_eqb key (lit "import") then
            headers_loop rest
              {| import_list := import_list h ++ args;
                 open_list := open_list h;
                 set_option_list := set_option_list h;
                 import_lines := import_lines h ++ [line];
                 open_lines := open_lines h;
                 set_option_lines := set_option_lines h |}
          else if Py.str_eqb key (lit "open") then
            headers_loop rest
              {| import_list := import_list h;
                 open_list := open_list h ++ args;
                 set_option_list := set_option_list h;
                 import_lines := import_lines h;
                 open_lines := open_lines h ++ [line];
                 set_option_lines := set_option_lines h |}
          else if Py.str_eqb key (lit "set_option") then
            headers_loop rest
              {| import_list := import_list h;
                 open_list := open_list h;
                 set_option_list := set_option_list h ++ [line];
                 import_lines := import_lines h;
                 open_lines := open_lines h;
                 set_option_lines := set_option_lines h ++ [line] |}
          else headers_loop rest h
      end
  end.

Definition extract_headers (self : LeanCodeParser) : res Headers :=
  h <- headers_loop (cleaned_lines self)
         {| import_list := []; open_list := []; set_option_list := [];
            import_lines := []; open_lines := []; set_option_lines := [] |} ;;
  let open_list' :=
    if Py.mem (lit "scoped") (open_list h)
    then remove_first (lit "scoped") (open_list h)
    else open_list h in
  Ret {| import_list := import_list h;
         open_list := open_list';
         set_option_list := set_option_list h;
         import_lines := import_lines h;
         open_lines := open_lines h;
         set_option_lines := set_option_lines h |}.

(** *** extract_name_from_code, get_theorem_name *)

Definition extract_name_from_code (code key default : str) : option str :=
  let code := Py.strip code in
  if negb (Py.startswith (key ++ lit " ") code) then None
  else
    let rest := Py.strip (skipn (length key) code) in
    if Py.startswith_any [lit ":"; lit "("; lit ":="] rest then Some default
    else
      match Re.match_group Pat.name_run rest with
      | Some g => Some g
      | None => None
      end.

Definition get_theorem_name (code default : str) : res (option str) :=
  if negb (Py.startswith_any [lit "theorem"; lit "lemma"] code)
  then Raise AssertionError
  else if Py.startswith (lit "theorem") code
  then Ret (extract_name_from_code code (lit "theorem") default)
  else Ret (extract_name_from_code code (lit "lemma") default).

(** *** extract_statement_and_proof_from_code *)

(** The [for i in range(search_start, len(code))] loop: [rest] is
    [code[i:]]; the result is the index the loop returns at, if any. *)
Fixpoint split_scan (rest : str) (i : nat)
    (paren_count bracket_count brace_count : Z) : option nat :=
  match rest with
  | [] => None
  | char :: rest' =>
      if Py.char_in char (lit "([{") then
        if N.eqb char (ch "(") then
          split_scan rest' (S i) (paren_count + 1)%Z bracket_count brace_count
        else if N.eqb char (ch "[") then
          split_scan rest' (S i) paren_count (bracket_count + 1)%Z brace_count
        else if N.eqb char (ch "{") then
          split_scan rest' (S i) paren_count bracket_count (brace_count + 1)%Z
        else split_scan rest' (S i) paren_count bracket_count brace_count
      else if Py.char_in char (lit ")]}") then
        if N.eqb char (ch ")") then
          split_scan rest' (S i) (paren_count - 1)%Z bracket_count brace_count
        else if N.eqb char (ch "]") then
          split_scan rest' (S i) paren_count (bracket_count - 1)%Z brace_count
        else if N.eqb char (ch "}") then
          split_scan rest' (S i) paren_count bracket_count (brace_count - 1)%Z
        else split_scan rest' (S i) paren_count bracket_count brace_count
      else if N.eqb char (ch ":")
              && match rest' with
                 | d :: _ => N.eqb d (ch "=")
                 | [] => false
                 end then
        if ((paren_count =? 0) && (bracket_count =? 0) && (brace_count =? 0))%Z
        then Some i
        else split_scan rest' (S i) paren_count bracket_count brace_count
      else split_scan rest' (S i) paren_count bracket_count brace_count
  end.

Definition extract_statement_and_proof_from_code (code : str)
  : option (str * str) :=
  if negb (Py.contains (lit ":=") code) then None
  else
    match split_scan code 0 0%Z 0%Z 0%Z with
    | Some i =>
        let statement := Py.strip (firstn i code) in
        let proof := Py.strip (skipn (i + 2) code) in
        Some (statement, proof)
    | None =>
        let parts := Py.split1 (lit ":=") code in
        let statement := Py.strip (nth 0 parts []) in
        let proof := if length parts =? 2 then Py.strip (nth 1 parts [])
                     else [] in
        Some (statement, proof)
    end.

(** *** parse_block *)

Inductive style := tactic | term | dot_block | unknown.

Record BlockInfo := {
  name : option str;
  statement : str;
  proof : str;
  with_sorry : bool;
  proof_style : style;
  inner_indent : nat
}.

(** [lines[0]] is read on every path (for the name, or for the default
    indentation), so an empty [lines] raises. *)
Definition parse_block (lines : list str) (key : str) : res BlockInfo :=
  let raw := Py.join [nl] lines in
  let is_dot := Py.mem key DOT_KEYS in
  match lines with
  | [] => Raise IndexError
  | line0 :: _ =>
      let '(name, statement, proof) :=
        if is_dot then
          (Some (lit "."), lit ".", Py.lstrip (skipn 1 (Py.lstrip raw)))
        else
          let name := extract_name_from_code line0 key (lit "this") in
          let '(statement, proof) :=
            match extract_statement_and_proof_from_code raw with
            | Some sp => sp
            | None => ([], [])
            end in
          (name, statement, proof) in
      let with_sorry := Py.mem (lit "sorry") (Py.split raw) in
      let proof_style :=
        if Py.startswith (lit "by") proof then tactic
        else if is_dot then dot_block
        else if nonempty proof then term else unknown in
      let cleaned_raw_proof := Re.sub_start Pat.first_line [] proof in
      let cleaned_raw_proof := Re.sub_start Pat.blank_lines [] cleaned_raw_proof in
      let inner_indent :=
        length cleaned_raw_proof - length (Py.lstrip cleaned_raw_proof) in
      let inner_indent :=
        if inner_indent <=? 0 then get_indent line0 + 2 else inner_indent in
      Ret {| name := name;
             statement := statement;
             proof := proof;
             with_sorry := with_sorry;
             proof_style := proof_style;
             inner_indent := inner_indent |}
  end.

(** *** get_block_from_lid *)

Record Block := {
  blk_start : nat;
  blk_end : nat;
  blk_lines : list str;
  blk_indent : nat;
  blk_key : str;
  blk_info : BlockInfo
}.

(** The [while i < len(self.cleaned_lines)] loop: [rest] is
    [self.cleaned_lines[i:]]; the result is [block_lines] and [i] when
    the loop is left. *)
Fixpoint block_loop (key : str) (start_indent : nat) (rest : list str)
    (block_lines : list str) (i : nat) : list str * nat :=
  match rest with
  | [] => (block_lines, i)
  | line :: rest' =>
      let line_indent := get_indent line in
      if start_indent <? line_indent then
        block_loop key start_indent rest' (block_lines ++ [line]) (i + 1)
      else if negb (nonempty (Py.strip line)) then
        block_loop key start_indent rest' block_lines (i + 1)
      else if line_indent =? start_indent then
        if Py.mem key DOT_KEYS then (block_lines, i)
        else if negb (Py.contains (lit ":=")
                        (strip_brackets (Py.join [nl] block_lines))) then
          block_loop key start_indent rest' (block_lines ++ [line]) (i + 1)
        else (block_lines, i)
      else (block_lines, i)
  end.

Definition default_keys (keys : option (list str)) : list str :=
  match keys with
  | Some ks => ks
  | None => [lit "theorem"]
  end.

(** The scan from a line index that is not negative.  The source takes
    a Python [int] and checks the upper bound only; a negative index,
    which Python counts from the end of the list, is outside this
    definition.  The extractor calls the scan with the indices from 0
    upwards. *)
Definition get_block_from_lid (self : LeanCodeParser)
    (start_line_index : nat) (keys : option (list str))
  : res (option Block) :=
  let keys := default_keys keys in
  match nth_error (cleaned_lines self) start_line_index with
  | None => Ret None      (* start_line_index >= len(self.cleaned_lines) *)
  | Some start_line =>
      match Py.split start_line with
      | [] => Raise IndexError   (* start_line.split()[0] *)
      | key :: _ =>
          if negb (Py.mem key keys) then Ret None
          else
            let start_indent := get_indent start_line in
            let '(block_lines, i) :=
              block_loop key start_indent
                (skipn (start_line_index + 1) (cleaned_lines self))
                [start_line] (start_line_index + 1) in
            info <- parse_block block_lines key ;;
            Ret (Some {| blk_start := start_line_index;
                         blk_end := i - 1;
                         blk_lines := block_lines;
                         blk_indent := start_indent;
                         blk_key := key;
                         blk_info := info |})
      end
  end.

(** *** extract_all_blocks *)

(** The filter on the number of proof lines. *)
Definition proof_lines_ok (min_proof_lines max_proof_lines : Z)
    (block : Block) : bool :=
  let n := Z.of_nat (length (Py.splitlines (proof (blk_info block)))) in
  ((min_proof_lines <=? n) && (n <=? max_proof_lines))%Z.

(** The [while i < len(self.cleaned_lines)] loop from index [i] on; every
    round needs one unit of [fuel]. *)
Fixpoint extract_loop (fuel : nat) (self : LeanCodeParser)
    (keys : option (list str)) (allow_overlap : bool)
    (min_proof_lines max_proof_lines : Z) (i : nat) : res (list Block) :=
  if length (cleaned_lines self) <=? i then Ret []
  else
    match fuel with
    | O => NoFuel
    | S fuel' =>
        block <- get_block_from_lid self i keys ;;
        match block with
        | Some b =>
            if proof_lines_ok min_proof_lines max_proof_lines b then
              let i := if negb allow_overlap then blk_end b else i in
              blocks <- extract_loop fuel' self keys allow_overlap
                          min_proof_lines max_proof_lines (i + 1) ;;
              Ret (b :: blocks)
            else
              extract_loop fuel' self keys allow_overlap
                min_proof_lines max_proof_lines (i + 1)
        | None =>
            extract_loop fuel' self keys allow_overlap
              min_proof_lines max_proof_lines (i + 1)
        end
    end.

(** The scan from index [i] on, with the fuel the remaining lines can
    use up. *)
Definition extract_from (self : LeanCodeParser) (keys : option (list str))
    (allow_overlap : bool) (min_proof_lines max_proof_lines : Z) (i : nat)
  : res (list Block) :=
  extract_loop (length (cleaned_lines self) - i) self keys allow_overlap
    min_proof_lines max_proof_lines i.

Definition extract_all_blocks (self : LeanCodeParser)
    (keys : option (list str)) (allow_overlap : bool)
    (min_proof_lines max_proof_lines : Z) : res (list Block) :=
  extract_from self keys allow_overlap min_proof_lines max_proof_lines 0.

(** *** extract_other *)

(** [sorted] on [(start, end)] pairs. *)
Definition pair_leb (a b : nat * nat) : bool :=
  (fst a <? fst b) || ((fst a =? fst b) && (snd a <=? snd b)).

Fixpoint insert_pair (x : nat * nat) (l : list (nat * nat)) : list (nat * nat) :=
  match l with
  | [] => [x]
  | y :: rest => if pair_leb y x then y :: insert_pair x rest else x :: l
  end.

Definition sorted_pairs (l : list (nat * nat)) : list (nat * nat) :=
  fold_left (fun acc x => insert_pair x acc) l [].

(** The inner [while]: [ranges] is [in_block_ranges[current_bid:]]. *)
Fixpoint skip_ranges (lid : nat) (ranges : list (nat * nat)) : list (nat * nat) :=
  match ranges with
  | (_, block_end) :: rest =>
      if block_end <? lid then skip_ranges lid rest else ranges
  | [] => []
  end.

Fixpoint select_loop (ls : list str) (lid : nat) (ranges : list (nat * nat))
  : list str :=
  match ls with
  | [] => []
  | line :: rest =>
      let ranges := skip_ranges lid ranges in
      let is_in_block :=
        match ranges with
        | (block_start, block_end) :: _ =>
            (block_start <=? lid) && (lid <=? block_end)
        | [] => false
        end in
      if negb is_in_block then line :: select_loop rest (lid + 1) ranges
      else select_loop rest (lid + 1) ranges
  end.

Definition extract_other (self : LeanCodeParser) (keys : option (list str))
    (except_line_prefix_list : option (list str)) : res str :=
  let keys := match keys with
              | Some ks => ks
              | None => [lit "theorem"; lit "lemma"]
              end in
  let except_line_prefix_list :=
    match except_line_prefix_list with
    | Some l => l
    | None => [lit "import"; lit "open"; lit "set_option"]
    end in
  blocks <- extract_all_blocks self (Some keys) false 0%Z 10000%Z ;;
  let selected_lines :=
    match blocks with
    | [] => cleaned_lines self
    | _ :: _ =>
        let in_block_ranges :=
          sorted_pairs (map (fun b => (blk_start b, blk_end b)) blocks) in
        select_loop (cleaned_lines self) 0 in_block_ranges
    end in
  Ret (Py.strip (Py.join [nl]
         (filter (fun line =>
                    negb (existsb (fun prefix =>
                                     Py.startswith prefix (Py.strip line))
                                  except_line_prefix_list))
                 selected_lines))).

(** ** Tools *)

(** Order of [str] values: code point by code point. *)
Fixpoint str_ltb (a b : str) : bool :=
  match a, b with
  | [], [] => false
  | [], _ :: _ => true
  | _ :: _, [] => false
  | x :: a', y :: b' => (x <? y)%N || ((x =? y)%N && str_ltb a' b')
  end.

(** [sorted(s)] for a set [s] held as a list: ascending, every member
    once. *)
Fixpoint insert_set (x : str) (l : list str) : list str :=
  match l with
  | [] => [x]
  | y :: rest =>
      if Py.str_eqb x y then l
      else if str_ltb x y then x :: l
      else y :: insert_set x rest
  end.

Definition sorted_set (l : list str) : list str :=
  fold_left (fun acc x => insert_set x acc) l [].

(** What one snippet contributes: its headers, its blocks and its other
    code. *)
Definition snippet_parts (code : str)
  : res (Headers * list Block * str) :=
  let p := new_parser code in
  headers <- extract_headers p ;;
  blocks <- extract_all_blocks p (Some [lit "theorem"; lit "lemma"]) false
              0%Z 10000%Z ;;
  other <- extract_other p None None ;;
  Ret (headers, blocks, other).

Record Sets := {
  final_import_set : list str;
  final_open_set : list str;
  final_set_option_set : list str;
  final_other_set : list str
}.

Definition add_snippet (sets : Sets) (headers : Headers) (other : str) : Sets :=
  {| final_import_set := final_import_set sets ++ import_list headers;
     final_open_set := final_open_set sets ++ open_list headers;
     final_set_option_set := final_set_option_set sets ++ set_option_list headers;
     final_other_set :=
       if 0 <? length other then final_other_set sets ++ [other]
       else final_other_set sets |}.

(** The [for lemma_raw in lemmas] loop. *)
Fixpoint lemmas_loop (lemmas : list str) (sets : Sets)
    (final_lemma_codes : list str) : res (Sets * list str) :=
  match lemmas with
  | [] => Ret (sets, final_lemma_codes)
  | lemma_raw :: rest =>
      parts <- snippet_parts lemma_raw ;;
      let '(headers, blocks, other) := parts in
      let sets := add_snippet sets headers other in
      let codes :=
        map (fun block =>
               let raw := Py.join [nl] (blk_lines block) in
               Py.replace1 (lit "theorem ") (lit "lemma ") raw)
            blocks in
      lemmas_loop rest sets (final_lemma_codes ++ codes)
  end.

Definition create_statement_with_lemmas (original_statement : str)
    (lemmas : list str) : res (str * list str) :=
  parts <- snippet_parts original_statement ;;
  let '(headers, blocks, other) := parts in
  let sets := add_snippet
                {| final_import_set := []; final_open_set := [];
                   final_set_option_set := []; final_other_set := [] |}
                headers other in
  let final_main_theorem_codes :=
    map (fun block => Py.join [nl] (blk_lines block)) blocks in
  r <- lemmas_loop lemmas sets [] ;;
  let '(sets, final_lemma_codes) := r in
  let final_code :=
    concat (map (fun x => lit "import " ++ x ++ [nl])
                (sorted_set (final_import_set sets)))
    ++ [nl] in
  let final_code :=
    if 0 <? length (final_set_option_set sets) then
      final_code
      ++ concat (map (fun x => Py.strip x ++ [nl])
                     (sorted_set (final_set_option_set sets)))
      ++ [nl]
    else final_code in
  let final_code :=
    if 0 <? length (final_open_set sets) then
      final_code ++ lit "open"
      ++ concat (map (fun x => lit " " ++ x) (sorted_set (final_open_set sets)))
      ++ [nl]
    else final_code in
  let final_code :=
    if 0 <? length (final_other_set sets) then
      final_code ++ [nl]
      ++ concat (map (fun x => x ++ [nl; nl]) (sorted_set (final_other_set sets)))
    else final_code in
  let final_code :=
    final_code ++ [nl]
    ++ concat (map (fun x => x ++ [nl; nl]) final_lemma_codes) ++ [nl] in
  let final_code :=
    final_code
    ++ concat (map (fun x => x ++ [nl; nl]) final_main_theorem_codes) in
  Ret (final_code, final_lemma_codes).

Definition gen_one_sorry_of_block (original_cleaned : str)
    (block_to_replace : Block) : str :=
  let blockinfo := blk_info block_to_replace in
  let raw_block := Py.join [nl] (blk_lines block_to_replace) in
  let proof := proof blockinfo in
  let raw_block_with_sorry :=
    Py.replace1 proof
      (match proof_style blockinfo with
       | tactic => lit "by sorry"
       | _ => lit "sorry"
       end)
      raw_block in
  let original_cleaned_with_sorry :=
    Py.replace1 raw_block raw_block_with_sorry original_cleaned in
  original_cleaned_with_sorry.

Definition create_proof_with_sorries (original_statement : str)
    (keys : list str) (max_sorry_cnt min_proof_lines max_proof_lines : Z)
  : res str :=
  let p := new_parser original_statement in
  blocks <- extract_all_blocks p (Some keys) false
              min_proof_lines max_proof_lines ;;
  let blocks :=
    Py.sorted_desc
      (fun x => (Z.of_nat (blk_end x) - Z.of_nat (blk_start x))%Z) blocks in
  let blocks := Py.slice_to max_sorry_cnt blocks in
  let raw_cleaned := Py.join [nl] (cleaned_lines p) in
  Ret (fold_left gen_one_sorry_of_block blocks raw_cleaned).

(** The defaults of [create_proof_with_sorries]. *)
Definition default_sorry_keys : list str := [lit "have"; lit "replace"].
Definition default_max_sorry_cnt : Z := 100000.
Definition default_max_proof_lines : Z := 100000.

(** ** Notions the statements use *)

(** The two-character operator [:=] sits at index [i] of [code]. *)
Definition assign_at (code : str) (i : nat) : Prop :=
  nth_error code i = Some (ch ":") /\ nth_error code (i + 1) = Some (ch "=").

(** Occurrences of one character, as an integer. *)
Definition count_char (c : char) (s : str) : Z :=
  Z.of_nat (count_occ N.eq_dec s c).

(** Bracket depth reached after reading [s]: opened minus closed. *)
Definition depth (opening closing : char) (s : str) : Z :=
  (count_char opening s - count_char closing s)%Z.

(** The three counters are zero when the scan stands at index [i]. *)
Definition zero_depth (code : str) (i : nat) : Prop :=
  depth (ch "(") (ch ")") (firstn i code) = 0%Z
  /\ depth (ch "[") (ch "]") (firstn i code) = 0%Z
  /\ depth (ch "{") (ch "}") (firstn i code) = 0%Z.

(** What a split at index [i] returns. *)
Definition split_at (code : str) (i : nat) : str * str :=
  (Py.strip (firstn i code), Py.strip (skipn (i + 2) code)).

(** A line with at least one non-whitespace character. *)
Definition nonblank (line : str) : Prop := Py.split line <> [].

(** Line [l] lies inside block [b]. *)
Definition covers (b : Block) (l : nat) : Prop :=
  blk_start b <= l <= blk_end b.

(** ** The remaining tools of the module *)

(** [LeanCodeParser.get_all_theorem_names]; the extractor runs with its
    defaults, overlap allowed. *)
Definition get_all_theorem_names (code : str) : res (list (option str)) :=
  let p := new_parser code in
  blocks <- extract_all_blocks p (Some [lit "theorem"; lit "lemma"]) true
              0%Z 10000%Z ;;
  Ret (map (fun block => name (blk_info block)) blocks).

(** The [for line in lines] loop of [add_newlines_before_keys]. *)
Fixpoint add_newlines_loop (lines : list str) (keys : list str) : list str :=
  match lines with
  | [] => []
  | line :: rest =>
      if existsb (fun key => Py.startswith key line) keys
      then [] :: line :: add_newlines_loop rest keys
      else line :: add_newlines_loop rest keys
  end.

Definition add_newlines_before_keys (code : str) (keys : list str) : str :=
  let lines := Py.splitlines code in
  Py.join [nl] (add_newlines_loop lines keys).

(** The [for line in lines] loop of [remove_imports]; [line.split()[1]]
    raises on a line with fewer than two tokens. *)
Fixpoint remove_imports_loop (lines : list str) (prefixes : list str)
  : res (list str) :=
  match lines with
  | [] => Ret []
  | line :: rest =>
      if negb (Py.startswith (lit "import") line) then
        result_lines <- remove_imports_loop rest prefixes ;;
        Ret (line :: result_lines)
      else
        match Py.split line with
        | _ :: package_name :: _ =>
            if existsb (fun prefix => Py.startswith prefix package_name)
                 prefixes
            then remove_imports_loop rest prefixes
            else
              result_lines <- remove_imports_loop rest prefixes ;;
              Ret (line :: result_lines)
        | _ => Raise IndexError
        end
  end.

Definition remove_imports (code : str) (prefixes : list str) : res str :=
  let lines := Py.splitlines code in
  result_lines <- remove_imports_loop lines prefixes ;;
  Ret (Py.join [nl] result_lines).

(** ** statement_tracker.py *)

Definition normalize_statement (statement : str) : str :=
  Py.join (lit " ") (Py.split statement).

(** A [Dict[str, str]]: the pairs in insertion order, every key once. *)
Definition dict := list (str * str).

(** [d[k] = v] *)
Fixpoint dict_set (d : dict) (k v : str) : dict :=
  match d with
  | [] => [(k, v)]
  | (k', v') :: rest =>
      if Py.str_eqb k' k then (k', v) :: rest
      else (k', v') :: dict_set rest k v
  end.

(** [d.get(k, default)] *)
Fixpoint dict_get (d : dict) (k default : str) : str :=
  match d with
  | [] => default
  | (k', v') :: rest =>
      if Py.str_eqb k' k then v' else dict_get rest k default
  end.

(** The [for block in blocks] loop of [extract_statements_from_file];
    [if name] skips an absent and an empty name. *)
Fixpoint statements_loop (blocks : list Block) (statements : dict) : dict :=
  match blocks with
  | [] => statements
  | block :: rest =>
      let statement := statement (blk_info block) in
      match name (blk_info block) with
      | Some name =>
          if nonempty name
          then statements_loop rest (dict_set statements name statement)
          else statements_loop rest statements
      | None => statements_loop rest statements
      end
  end.

(** [extract_statements_from_file] as a function of what the file holds:
    [None] stands for a path that does not exist.  Any exception of the
    parser ends in the empty dict, as the [except] clause has it. *)
Definition extract_statements_from_file (content : option str) : dict :=
  match content with
  | None => []
  | Some code =>
      let parser := new_parser code in
      match extract_all_blocks parser (Some [lit "theorem"; lit "lemma"])
              false 0%Z 10000%Z with
      | Ret blocks => statements_loop blocks []
      | Raise _ => []
      | NoFuel => []
      end
  end.

Inductive change_kind := modified | added | removed.

Record StatementChange := {
  change_name : str;
  change_original : str;
  change_current : str;
  change_type : change_kind
}.

(** The body of the [for name in all_names] loop of
    [StatementTracker.check], for the two snapshots of one file: the
    changes it appends for [name]. *)
Definition check_name (initial current : dict) (name : str)
  : list StatementChange :=
  let orig := dict_get initial name [] in
  let curr := dict_get current name [] in
  let orig_norm := normalize_statement orig in
  let curr_norm := normalize_statement curr in
  if negb (Py.str_eqb orig_norm curr_norm) then
    let change_type :=
      if negb (nonempty orig) then added
      else if negb (nonempty curr) then removed
      else modified in
    [{| change_name := name;
        change_original := orig;
        change_current := curr;
        change_type := change_type |}]
  else [].

(** ** Further notions the statements use *)

(** The characters that end a declaration name. *)
Definition delimiter (c : char) : bool := Py.char_in c (lit " :{[(").

(** The longest prefix of [s] whose characters all satisfy [f]. *)
Fixpoint takewhile (f : char -> bool) (s : str) : str :=
  match s with
  | [] => []
  | c :: t => if f c then c :: takewhile f t else []
  end.

(** A token: non-empty and free of whitespace. *)
Definition word (w : str) : Prop :=
  w <> [] /\ forallb (fun c => negb (Py.isspace c)) w = true.

(** [sub] occurs in [s]. *)
Definition occurs (sub s : str) : Prop := exists a b, s = a ++ sub ++ b.

(** The first token of a line, if it has one. *)
Definition first_token (line : str) : option str := hd_error (Py.split line).

(** The first token of [line] is [k]. *)
Definition first_token_is (k line : str) : bool :=
  match Py.split line with
  | key :: _ => Py.str_eqb key k
  | [] => false
  end.

(** The tokens of a header line after its key. *)
Definition header_args (line : str) : list str := tl (Py.split line).

(** Block [b] carries the name [n], a non-empty one. *)
Definition named (n : str) (b : Block) : bool :=
  match name (blk_info b) with
  | Some m => nonempty m && Py.str_eqb m n
  | None => false
  end.

(** The second token of a line, which [remove_imports] takes for the
    package name. *)
Definition package_name (line : str) : option str :=
  nth_error (Py.split line) 1.

(** The lines [remove_imports] lets through. *)
Definition kept_import (prefixes : list str) (line : str) : bool :=
  negb (Py.startswith (lit "import") line)
  || match package_name line with
     | Some pk => negb (existsb (fun prefix => Py.startswith prefix pk) prefixes)
     | None => true
     end.

(** A line that starts with one of the keys. *)
Definition starts_with_key (keys : list str) (line : str) : bool :=
  existsb (fun key => Py.startswith key line) keys.

(** Line index [lid] lies in one of the blocks. *)
Definition in_some_block (blocks : list Block) (lid : nat) : bool :=
  existsb (fun b => (blk_start b <=? lid) && (lid <=? blk_end b)) blocks.

(** The lines whose index lies in none of the blocks, in order. *)
Definition lines_outside (blocks : list Block) (lines : list str) : list str :=
  map snd
    (filter (fun il => negb (in_some_block blocks (fst il)))
            (combine (seq 0 (length lines)) lines)).

(** A line that, once trimmed, starts with one of the header keywords. *)
Definition header_prefixed (line : str) : bool :=
  existsb (fun prefix => Py.startswith prefix (Py.strip line))
          [lit "import"; lit "open"; lit "set_option"].

(** Line index [lid] lies in one of the [(start, end)] ranges. *)
Definition in_some_range (ranges : list (nat * nat)) (lid : nat) : bool :=
  existsb (fun r => (fst r <=? lid) && (lid <=? snd r)) ranges.

(** The theorem and lemma blocks of a snippet, as the composer extracts
    them. *)
Definition snippet_blocks (code : str) : list Block :=
  match extract_all_blocks (new_parser code)
          (Some [lit "theorem"; lit "lemma"]) false 0%Z 10000%Z with
  | Ret blocks => blocks
  | Raise _ => []
  | NoFuel => []
  end.

(** The block texts of a lemma snippet after the keyword rewrite. *)
Definition snippet_lemma_codes (lemma_raw : str) : list str :=
  map (fun block =>
         Py.replace1 (lit "theorem ") (lit "lemma ")
           (Py.join [nl] (blk_lines block)))
      (snippet_blocks lemma_raw).

(** ** Facts about the string primitives *)

Lemma str_eqb_eq (a b : str) : Py.str_eqb a b = true <-> a = b.
Proof.
  revert b; induction a as [|x a IH]; intros [|y b]; simpl;
    try (split; [discriminate | discriminate]); [tauto|].
  rewrite andb_true_iff, N.eqb_eq, IH.
  split; [intros [-> ->]; reflexivity | intros [= -> ->]; auto].
Qed.

Lemma mem_In (x : str) (l : list str) : Py.mem x l = true <-> In x l.
Proof.
  unfold Py.mem. rewrite existsb_exists. split.
  - intros (y & Hy & E). apply str_eqb_eq in E. subst. exact Hy.
  - intros H. exists x. split; [exact H | apply str_eqb_eq; reflexivity].
Qed.

Lemma startswith_app (p s : str) :
  Py.startswith p s = true <-> exists t, s = p ++ t.
Proof.
  revert s; induction p as [|x p IH]; intros s; simpl.
  - split; [intros _; exists s; reflexivity | reflexivity].
  - destruct s as [|y s].
    + split; [discriminate | intros (t & E); discriminate].
    + rewrite andb_true_iff, N.eqb_eq, IH. split.
      * intros (-> & t & ->). exists t. reflexivity.
      * intros (t & [= -> ->]). split; [reflexivity | exists t; reflexivity].
Qed.

Lemma startswith_extend (p s w : str) :
  Py.startswith p s = true -> Py.startswith p (s ++ w) = true.
Proof.
  rewrite !startswith_app. intros (t & ->). exists (t ++ w).
  rewrite app_assoc. reflexivity.
Qed.

Lemma dropwhile_split (f : char -> bool) (s : str) :
  exists a, s = a ++ Py.dropwhile f s /\ forallb f a = true.
Proof.
  induction s as [|c s (a & E & Ha)]; simpl.
  - exists []. auto.
  - destruct (f c) eqn:Hc.
    + exists (c :: a). simpl. rewrite Hc, Ha. split; [f_equal; exact E | reflexivity].
    + exists []. auto.
Qed.

Lemma rstrip_prefix (s : str) : exists w, s = Py.rstrip s ++ w.
Proof.
  unfold Py.rstrip.
  destruct (dropwhile_split Py.isspace (rev s)) as (a & E & _).
  exists (rev a). rewrite <- rev_app_distr, <- E, rev_involutive. reflexivity.
Qed.

Lemma strip_of_nonspace_head (c : char) (s : str) :
  Py.isspace c = false -> exists w, c :: s = Py.strip (c :: s) ++ w.
Proof.
  intros Hc. unfold Py.strip, Py.lstrip. simpl. rewrite Hc.
  apply rstrip_prefix.
Qed.

(** ** Name extraction *)

Lemma extract_name_guard (code key default : str) :
  Py.startswith (key ++ lit " ") (Py.strip code) = false ->
  extract_name_from_code code key default = None.
Proof.
  intros H. unfold extract_name_from_code. rewrite H. reflexivity.
Qed.

Lemma extract_name_some (code key default n : str) :
  extract_name_from_code code key default = Some n ->
  Py.startswith (key ++ lit " ") (Py.strip code) = true.
Proof.
  intros H.
  destruct (Py.startswith (key ++ lit " ") (Py.strip code)) eqn:E;
    [reflexivity|].
  rewrite (extract_name_guard _ _ _ E) in H. discriminate.
Qed.

(** A text that begins with a non-whitespace character and whose trimmed
    form begins with [p] begins with [p] itself. *)
Lemma startswith_strip_back (p code : str) (c : char) :
  Py.startswith [c] code = true -> Py.isspace c = false ->
  Py.startswith p (Py.strip code) = true -> Py.startswith p code = true.
Proof.
  intros Hc Hs Hp. apply startswith_app in Hc. destruct Hc as (t & ->).
  simpl in *. destruct (strip_of_nonspace_head c t Hs) as (w & E).
  rewrite E. apply startswith_extend. exact Hp.
Qed.

Lemma startswith_head (p code : str) (c : char) :
  Py.startswith (c :: p) code = true -> Py.startswith [c] code = true.
Proof.
  rewrite !startswith_app. intros (t & ->). exists (p ++ t). reflexivity.
Qed.

(** ** C7 *)

(** A text for which [get_theorem_name] returns comes without a name
    unless it starts with ["theorem "] or ["lemma "]. *)
Lemma get_theorem_name_without_key (code default : str) :
  Py.startswith (lit "theorem ") code = false ->
  Py.startswith (lit "lemma ") code = false ->
  get_theorem_name code default = Raise AssertionError
  \/ get_theorem_name code default = Ret None.
Proof.
  intros Ht Hl. unfold get_theorem_name, Py.startswith_any.
  cbn [existsb].
  destruct (Py.startswith (lit "theorem") code) eqn:E; cbn [orb negb].
  - right.
    destruct (extract_name_from_code code (lit "theorem") default) eqn:En;
      [|reflexivity].
    apply extract_name_some in En.
    apply (startswith_strip_back _ _ (ch "t")) in En;
      [| exact (startswith_head _ _ _ E) | reflexivity].
    change (lit "theorem" ++ lit " ") with (lit "theorem ") in En.
    congruence.
  - destruct (Py.startswith (lit "lemma") code) eqn:El; cbn [orb negb];
      [right | left; reflexivity].
    destruct (extract_name_from_code code (lit "lemma") default) eqn:En;
      [|reflexivity].
    apply extract_name_some in En.
    apply (startswith_strip_back _ _ (ch "l")) in En;
      [| exact (startswith_head _ _ _ El) | reflexivity].
    change (lit "lemma" ++ lit " ") with (lit "lemma ") in En.
    congruence.
Qed.

(** C7 as first stated fails.  Asked for the name of a [theorem] in a text
    that starts with [lemma], [extract_name_from_code] raises nothing: it
    returns [None], the value it also returns for a well-formed header
    that has no name, and the classifier called with the wrong key
    returns normally with that [None] stored as the name.  Asked for the
    theorem name of ["theoremfoo : P"], which is no declaration,
    [get_theorem_name] passes its assertion and returns [None] as well. *)
Lemma key_mismatch_returns_none :
  extract_name_from_code (lit "lemma foo : P") (lit "theorem") (lit "this")
  = None
  /\ extract_name_from_code (lit "theorem {x : Nat} : P := trivial")
       (lit "theorem") (lit "this")
     = extract_name_from_code (lit "lemma foo : P") (lit "theorem")
         (lit "this")
  /\ (exists info,
         parse_block [lit "lemma foo : P := h"] (lit "theorem") = Ret info
         /\ name info = None)
  /\ get_theorem_name (lit "theoremfoo : P") (lit "this") = Ret None
  /\ get_theorem_name (lit "theoremfoo : P") (lit "this")
     <> Raise AssertionError.
Proof.
  split; [vm_compute; reflexivity|].
  split; [vm_compute; reflexivity|].
  split; [eexists; split; [vm_compute; reflexivity | reflexivity]|].
  split; [vm_compute; reflexivity|].
  vm_compute. intros E; discriminate E.
Qed.

(** C7, amended.  A name is never guessed, and only [get_theorem_name]
    fails hard.  [extract_name_from_code] answers a text whose trimmed form
    does not start with the key followed by a space with [None], without
    raising, and returns a name only for a text that does start so;
    [get_theorem_name] raises [AssertionError] for every text that starts
    with neither ["theorem"] nor ["lemma"], and returns a name only for a
    text that starts with ["theorem "] or ["lemma "]. *)
Theorem name_contract_violation_outcome :
  (forall code key default,
      Py.startswith (key ++ lit " ") (Py.strip code) = false ->
      extract_name_from_code code key default = None)
  /\ (forall code key default n,
         extract_name_from_code code key default = Some n ->
         Py.startswith (key ++ lit " ") (Py.strip code) = true)
  /\ (forall code default,
         Py.startswith (lit "theorem") code = false ->
         Py.startswith (lit "lemma") code = false ->
         get_theorem_name code default = Raise AssertionError)
  /\ (forall code default n,
         get_theorem_name code default = Ret (Some n) ->
         Py.startswith (lit "theorem ") code = true
         \/ Py.startswith (lit "lemma ") code = true).
Proof.
  split; [exact extract_name_guard|].
  split; [exact extract_name_some|]. split.
  - intros code default Ht Hl. unfold get_theorem_name, Py.startswith_any.
    cbn [existsb]. rewrite Ht, Hl. reflexivity.
  - intros code default n Hn.
    destruct (Py.startswith (lit "theorem ") code) eqn:Ht; [left; reflexivity|].
    destruct (Py.startswith (lit "lemma ") code) eqn:Hl; [right; reflexivity|].
    destruct (get_theorem_name_without_key code default Ht Hl) as [E|E];
      rewrite E in Hn; discriminate Hn.
Qed.

Lemma name_contract_violation_outcome_witness :
  extract_name_from_code (lit "lemma foo : P") (lit "theorem") (lit "this")
  = None
  /\ Py.startswith (lit "theorem" ++ lit " ") (Py.strip (lit "theorem foo : P"))
     = true
  /\ get_theorem_name (lit "def foo := 1") (lit "this") = Raise AssertionError
  /\ (Py.startswith (lit "theorem ") (lit "lemma bar : Q") = true
      \/ Py.startswith (lit "lemma ") (lit "lemma bar : Q") = true).
Proof.
  destruct name_contract_violation_outcome as (H1 & H2 & H3 & H4).
  split; [apply H1; reflexivity|].
  split; [apply (H2 _ _ (lit "this") (lit "foo")); vm_compute; reflexivity|].
  split; [apply H3; reflexivity|].
  apply (H4 _ (lit "this") (lit "bar")). vm_compute. reflexivity.
Defined.

(** ** C10 *)

(** C10. A declaration whose header goes on with a brace or a square
    bracket right after the key has no name for the extractor: the result
    is [None], neither the default ["this"] nor an exception.  The block
    itself is well formed: it splits into statement and proof, and the
    classifier stores the absent name. *)
Theorem bracket_header_has_no_name :
  get_theorem_name (lit "theorem {x : Nat} : P := trivial") (lit "this")
  = Ret None
  /\ get_theorem_name (lit "lemma [inst : Foo] : P := trivial") (lit "this")
     = Ret None
  /\ extract_name_from_code (lit "theorem {x : Nat} : P := trivial")
       (lit "theorem") (lit "this") = None
  /\ extract_statement_and_proof_from_code
       (lit "theorem {x : Nat} : P := trivial")
     = Some (lit "theorem {x : Nat} : P", lit "trivial")
  /\ (exists info,
         parse_block [lit "theorem {x : Nat} : P := trivial"] (lit "theorem")
         = Ret info
         /\ name info = None /\ proof_style info = term).
Proof.
  repeat split; try (vm_compute; reflexivity).
  eexists. split; [vm_compute; reflexivity|]. split; reflexivity.
Qed.

(** ** C6 *)

(** C6 (the source departs from it). With two [open scoped] lines the
    open list still holds ["scoped"]: [list.remove] takes out the first
    occurrence only. *)
Theorem scoped_kept_from_second_open_line :
  exists h,
    extract_headers
      (new_parser (lit "open scoped Nat" ++ [nl] ++ lit "open scoped Real"))
    = Ret h
    /\ open_list h = [lit "Nat"; lit "scoped"; lit "Real"]
    /\ In (lit "scoped") (open_list h).
Proof.
  eexists. split; [vm_compute; reflexivity|].
  split; [reflexivity | right; left; reflexivity].
Qed.

(** ** C5 *)

(** C5 (the source departs from it). The classifier tests whether the
    proof text begins with [by] before it looks at the key, so a bullet
    block whose body opens with the tactic [by_cases] has name ["."] and
    statement ["."] but carries the style [tactic], not [dot_block]; its
    sibling bullet, whose body opens with [exact], carries [dot_block].
    The stub generator follows the style and writes [by sorry] into the
    first bullet and [sorry] into the second. *)
Theorem bullet_block_classified_tactic :
  let src := lit "theorem foo : P := by" ++ [nl] ++ lit "  constructor"
             ++ [nl] ++ lit "  . by_cases h : p" ++ [nl] ++ lit "    simp"
             ++ [nl] ++ lit "  . exact hq" in
  let stubbed := lit "theorem foo : P := by" ++ [nl] ++ lit "  constructor"
                 ++ [nl] ++ lit "  ." ++ [nl] ++ lit "    by sorry"
                 ++ [nl] ++ lit "  ." ++ [nl] ++ lit "    sorry" in
  (exists b1 b2,
      extract_all_blocks (new_parser src) (Some DOT_KEYS) false 0
        default_max_proof_lines = Ret [b1; b2]
      /\ blk_lines b1 = [lit "  ."; lit "    by_cases h : p"; lit "    simp"]
      /\ In (blk_key b1) DOT_KEYS
      /\ name (blk_info b1) = Some (lit ".")
      /\ statement (blk_info b1) = lit "."
      /\ proof_style (blk_info b1) = tactic
      /\ proof_style (blk_info b1) <> dot_block
      /\ blk_lines b2 = [lit "  ."; lit "    exact hq"]
      /\ In (blk_key b2) DOT_KEYS
      /\ proof_style (blk_info b2) = dot_block)
  /\ create_proof_with_sorries src [lit "."] default_max_sorry_cnt 0
       default_max_proof_lines = Ret stubbed.
Proof.
  cbv zeta. split; [|vm_compute; reflexivity].
  eexists. eexists. split; [vm_compute; reflexivity|].
  split; [reflexivity|]. split; [left; reflexivity|].
  split; [reflexivity|]. split; [reflexivity|]. split; [reflexivity|].
  split; [intros E; discriminate E|].
  split; [reflexivity|]. split; [left; reflexivity | reflexivity].
Qed.

(** ** The statement/proof splitter *)

Lemma assign_at_cons (c : char) (code : str) (i : nat) :
  assign_at (c :: code) (S i) <-> assign_at code i.
Proof. unfold assign_at. simpl. tauto. Qed.

Lemma assign_at_0 (code : str) :
  assign_at code 0 <-> Py.startswith (lit ":=") code = true.
Proof.
  rewrite startswith_app. unfold assign_at. split.
  - destruct code as [|x [|y t]]; simpl; intros [[= ->] H]; try discriminate.
    injection H as ->. exists t. reflexivity.
  - intros (t & ->). split; reflexivity.
Qed.

Lemma find_assign_none (code : str) :
  Py.find (lit ":=") code = None -> forall i, ~ assign_at code i.
Proof.
  induction code as [|c code IH]; intros H i Hi.
  - destruct Hi as [Hi _]. destruct i; discriminate Hi.
  - cbn [Py.find] in H.
    destruct (Py.startswith (lit ":=") (c :: code)) eqn:E; [discriminate|].
    destruct i as [|i].
    + apply assign_at_0 in Hi. congruence.
    + apply assign_at_cons in Hi.
      destruct (Py.find (lit ":=") code); [discriminate|].
      exact (IH eq_refl i Hi).
Qed.

Lemma find_assign_some (code : str) (i : nat) :
  Py.find (lit ":=") code = Some i ->
  assign_at code i /\ forall j, j < i -> ~ assign_at code j.
Proof.
  revert i; induction code as [|c code IH]; intros i H.
  - discriminate H.
  - cbn [Py.find] in H.
    destruct (Py.startswith (lit ":=") (c :: code)) eqn:E.
    + injection H as <-. split; [apply assign_at_0; exact E | intros j Hj; lia].
    + destruct (Py.find (lit ":=") code) as [i'|] eqn:F; [|discriminate].
      injection H as <-. destruct (IH i' eq_refl) as [Ha Hmin]. split.
      * apply assign_at_cons. exact Ha.
      * intros [|j] Hj Hc.
        -- apply assign_at_0 in Hc. congruence.
        -- apply assign_at_cons in Hc. apply (Hmin j); [lia | exact Hc].
Qed.

Lemma contains_assign (code : str) :
  Py.contains (lit ":=") code = true <-> exists i, assign_at code i.
Proof.
  unfold Py.contains. destruct (Py.find (lit ":=") code) as [i|] eqn:F.
  - split; [intros _ | reflexivity].
    exists i. apply (find_assign_some _ _ F).
  - split; [discriminate|]. intros (i & Hi).
    exfalso. exact (find_assign_none _ F i Hi).
Qed.

(** What one character adds to a counter. *)
Lemma depth_snoc (o c x : char) (pre : str) :
  depth o c (pre ++ [x])
  = (depth o c pre + ((if N.eqb x o then 1 else 0)
                      - (if N.eqb x c then 1 else 0)))%Z.
Proof.
  unfold depth, count_char. rewrite !count_occ_app. cbn [count_occ].
  destruct (N.eq_dec x o) as [Ho|Ho];
    [rewrite (proj2 (N.eqb_eq x o) Ho) | rewrite (proj2 (N.eqb_neq x o) Ho)];
    (destruct (N.eq_dec x c) as [Hc|Hc];
     [rewrite (proj2 (N.eqb_eq x c) Hc) | rewrite (proj2 (N.eqb_neq x c) Hc)]);
    unfold char; lia.
Qed.

(** One round of the scan, bracket cases and all, in one equation. *)
Lemma split_scan_step (char : char) (rest' : str) (i : nat) (p b c : Z) :
  split_scan (char :: rest') i p b c
  = if N.eqb char (ch ":")
       && match rest' with d :: _ => N.eqb d (ch "=") | [] => false end
       && ((p =? 0) && (b =? 0) && (c =? 0))%Z
    then Some i
    else split_scan rest' (S i)
           (p + ((if N.eqb char (ch "(") then 1 else 0)
                 - (if N.eqb char (ch ")") then 1 else 0)))%Z
           (b + ((if N.eqb char (ch "[") then 1 else 0)
                 - (if N.eqb char (ch "]") then 1 else 0)))%Z
           (c + ((if N.eqb char (ch "{") then 1 else 0)
                 - (if N.eqb char (ch "}") then 1 else 0)))%Z.
Proof.
  cbn [split_scan]. unfold Py.char_in. cbn [existsb lit map list_ascii_of_string].
  change (N_of_ascii "(") with (ch "("). change (N_of_ascii "[") with (ch "[").
  change (N_of_ascii "{") with (ch "{"). change (N_of_ascii ")") with (ch ")").
  change (N_of_ascii "]") with (ch "]"). change (N_of_ascii "}") with (ch "}").
  destruct (N.eqb_spec char (ch "(")) as [->|H1];
    [cbn; f_equal; lia|].
  destruct (N.eqb_spec char (ch "[")) as [->|H2];
    [cbn; f_equal; lia|].
  destruct (N.eqb_spec char (ch "{")) as [->|H3];
    [cbn; f_equal; lia|].
  destruct (N.eqb_spec char (ch ")")) as [->|H4];
    [cbn; f_equal; lia|].
  destruct (N.eqb_spec char (ch "]")) as [->|H5];
    [cbn; f_equal; lia|].
  destruct (N.eqb_spec char (ch "}")) as [->|H6];
    [cbn; f_equal; lia|].
  cbn [orb andb].
  destruct (N.eqb char (ch ":")
            && match rest' with d :: _ => N.eqb d (ch "=") | [] => false end);
    cbn [andb].
  - destruct ((p =? 0) && (b =? 0) && (c =? 0))%Z; [reflexivity|]. f_equal; lia.
  - f_equal; lia.
Qed.

Lemma firstn_length_app (pre rest : str) :
  firstn (length pre) (pre ++ rest) = pre.
Proof.
  rewrite firstn_app, Nat.sub_diag, firstn_all. simpl. apply app_nil_r.
Qed.

Lemma zero_depth_here (pre rest : str) :
  zero_depth (pre ++ rest) (length pre)
  <-> ((depth (ch "(") (ch ")") pre =? 0)
       && (depth (ch "[") (ch "]") pre =? 0)
       && (depth (ch "{") (ch "}") pre =? 0))%Z = true.
Proof.
  unfold zero_depth. rewrite firstn_length_app.
  rewrite !andb_true_iff, !Z.eqb_eq. tauto.
Qed.

Lemma assign_here (pre : str) (char : char) (rest' : str) :
  assign_at (pre ++ char :: rest') (length pre)
  <-> N.eqb char (ch ":")
      && match rest' with d :: _ => N.eqb d (ch "=") | [] => false end = true.
Proof.
  unfold assign_at.
  rewrite nth_error_app2 by lia. rewrite Nat.sub_diag.
  rewrite nth_error_app2 by lia.
  replace (length pre + 1 - length pre) with 1 by lia.
  cbn [nth_error]. rewrite andb_true_iff, N.eqb_eq.
  destruct rest' as [|d t]; cbn [nth_error].
  - split; [intros [_ H]; discriminate H | intros [_ H]; discriminate H].
  - rewrite N.eqb_eq. split.
    + intros [[= ->] [= ->]]. auto.
    + intros [-> ->]. auto.
Qed.

(** The scan returns the least index, from its starting point on, that
    carries the operator at zero depth, and returns none only if there is
    none. *)
Lemma split_scan_spec (rest : str) : forall pre : str,
  match split_scan rest (length pre)
          (depth (ch "(") (ch ")") pre) (depth (ch "[") (ch "]") pre)
          (depth (ch "{") (ch "}") pre) with
  | Some i =>
      length pre <= i /\ assign_at (pre ++ rest) i
      /\ zero_depth (pre ++ rest) i
      /\ (forall j, length pre <= j -> j < i ->
                    assign_at (pre ++ rest) j -> ~ zero_depth (pre ++ rest) j)
  | None =>
      forall j, length pre <= j ->
                assign_at (pre ++ rest) j -> ~ zero_depth (pre ++ rest) j
  end.
Proof.
  induction rest as [|char rest' IH]; intros pre.
  - cbn [split_scan]. intros j Hj [Ha _].
    rewrite app_nil_r in Ha.
    assert (j < length pre) by (apply nth_error_Some; congruence). lia.
  - rewrite split_scan_step.
    destruct (N.eqb char (ch ":")
              && match rest' with d :: _ => N.eqb d (ch "=") | [] => false end)
      eqn:Ha.
    + destruct ((depth (ch "(") (ch ")") pre =? 0)
                && (depth (ch "[") (ch "]") pre =? 0)
                && (depth (ch "{") (ch "}") pre =? 0))%Z eqn:Hz;
        cbn [andb].
      * split; [lia|]. split; [apply assign_here; exact Ha|].
        split; [apply zero_depth_here; exact Hz|]. intros j H1 H2. lia.
      * specialize (IH (pre ++ [char])).
        rewrite !depth_snoc, length_app, <- app_assoc in IH.
        cbn [length app] in IH. rewrite Nat.add_1_r in IH.
        destruct (split_scan rest' _ _ _ _) as [i|].
        -- destruct IH as (Hle & Hi & Hzi & Hmin).
           split; [lia|]. split; [exact Hi|]. split; [exact Hzi|].
           intros j H1 H2 Hj Hzj.
           destruct (Nat.eq_dec j (length pre)) as [->|Hne].
           ++ apply zero_depth_here in Hzj. congruence.
           ++ apply (Hmin j); [lia | lia | exact Hj | exact Hzj].
        -- intros j H1 Hj Hzj.
           destruct (Nat.eq_dec j (length pre)) as [->|Hne].
           ++ apply zero_depth_here in Hzj. congruence.
           ++ apply (IH j); [lia | exact Hj | exact Hzj].
    + cbn [andb].
      specialize (IH (pre ++ [char])).
      rewrite !depth_snoc, length_app, <- app_assoc in IH.
      cbn [length app] in IH. rewrite Nat.add_1_r in IH.
      destruct (split_scan rest' _ _ _ _) as [i|].
      * destruct IH as (Hle & Hi & Hzi & Hmin).
        split; [lia|]. split; [exact Hi|]. split; [exact Hzi|].
        intros j H1 H2 Hj Hzj.
        destruct (Nat.eq_dec j (length pre)) as [->|Hne].
        -- apply assign_here in Hj. congruence.
        -- apply (Hmin j); [lia | lia | exact Hj | exact Hzj].
      * intros j H1 Hj Hzj.
        destruct (Nat.eq_dec j (length pre)) as [->|Hne].
        -- apply assign_here in Hj. congruence.
        -- apply (IH j); [lia | exact Hj | exact Hzj].
Qed.

Lemma split_scan_top (code : str) :
  match split_scan code 0 0%Z 0%Z 0%Z with
  | Some i =>
      assign_at code i /\ zero_depth code i
      /\ (forall j, j < i -> assign_at code j -> ~ zero_depth code j)
  | None => forall j, assign_at code j -> ~ zero_depth code j
  end.
Proof.
  pose proof (split_scan_spec code []) as H.
  change (depth (ch "(") (ch ")") []) with 0%Z in H.
  change (depth (ch "[") (ch "]") []) with 0%Z in H.
  change (depth (ch "{") (ch "}") []) with 0%Z in H.
  cbn [length app] in H.
  destruct (split_scan code 0 0 0 0) as [i|].
  - destruct H as (_ & Ha & Hz & Hmin). split; [exact Ha|].
    split; [exact Hz|]. intros j Hj. apply Hmin; [lia | exact Hj].
  - intros j. apply H. lia.
Qed.

(** ** C1 *)

(** C1. The splitter reports no split exactly when [:=] occurs nowhere in
    the text.  Otherwise it splits at the first [:=] that is read while
    the three bracket counters are zero, returning the trimmed text before
    it and the trimmed text after the two characters; when no occurrence
    stands at zero depth it splits at the first [:=] of the text.  On
    ["lemma bar (h : (fun x := x) = id) : True := trivial"] the scan passes
    the inner [:=] at index 22 and stops at the outer one at index 41, and
    the proof is ["trivial"]. *)
Theorem splitter_characterisation :
  (forall code : str,
      (extract_statement_and_proof_from_code code = None
       <-> forall i, ~ assign_at code i)
      /\ (forall i,
             assign_at code i -> zero_depth code i ->
             (forall j, j < i -> assign_at code j -> ~ zero_depth code j) ->
             extract_statement_and_proof_from_code code
             = Some (split_at code i))
      /\ (forall i,
             assign_at code i ->
             (forall j, assign_at code j -> ~ zero_depth code j) ->
             (forall j, j < i -> ~ assign_at code j) ->
             extract_statement_and_proof_from_code code
             = Some (split_at code i)))
  /\ (let code := lit "lemma bar (h : (fun x := x) = id) : True := trivial" in
      assign_at code 22 /\ assign_at code 41
      /\ split_scan code 0 0%Z 0%Z 0%Z = Some 41
      /\ extract_statement_and_proof_from_code code
         = Some (lit "lemma bar (h : (fun x := x) = id) : True",
                 lit "trivial")).
Proof.
  split.
  - intros code. split; [|split].
    + unfold extract_statement_and_proof_from_code.
      destruct (Py.contains (lit ":=") code) eqn:C; cbn [negb].
      * split.
        -- destruct (split_scan code 0 0 0 0); discriminate.
        -- intros Hno. apply contains_assign in C. destruct C as (i & Hi).
           exfalso. exact (Hno i Hi).
      * split; [intros _ | reflexivity].
        intros i Hi.
        assert (Py.contains (lit ":=") code = true) as C'
            by (apply contains_assign; exists i; exact Hi).
        congruence.
    + intros i Ha Hz Hmin.
      unfold extract_statement_and_proof_from_code.
      rewrite (proj2 (contains_assign code) (ex_intro _ i Ha)). cbn [negb].
      pose proof (split_scan_top code) as H.
      destruct (split_scan code 0 0 0 0) as [i'|].
      * destruct H as (Ha' & Hz' & Hmin').
        assert (i' = i) as ->; [|reflexivity].
        destruct (Nat.lt_trichotomy i' i) as [Hlt|[Heq|Hgt]];
          [exfalso | exact Heq | exfalso].
        -- exact (Hmin i' Hlt Ha' Hz').
        -- exact (Hmin' i Hgt Ha Hz).
      * exfalso. exact (H i Ha Hz).
    + intros i Ha Hnone Hfirst.
      unfold extract_statement_and_proof_from_code.
      rewrite (proj2 (contains_assign code) (ex_intro _ i Ha)). cbn [negb].
      pose proof (split_scan_top code) as H.
      destruct (split_scan code 0 0 0 0) as [i'|].
      * exfalso. destruct H as (Ha' & Hz' & _). exact (Hnone i' Ha' Hz').
      * unfold Py.split1.
        destruct (Py.find (lit ":=") code) as [k|] eqn:F.
        -- destruct (find_assign_some _ _ F) as [Hk Hkmin].
           assert (k = i) as ->; [|reflexivity].
           destruct (Nat.lt_trichotomy k i) as [Hlt|[Heq|Hgt]];
             [exfalso | exact Heq | exfalso].
           ++ exact (Hfirst k Hlt Hk).
           ++ exact (Hkmin i Hgt Ha).
        -- exfalso. exact (find_assign_none _ F i Ha).
  - cbv zeta. split; [split; reflexivity|]. split; [split; reflexivity|].
    split; vm_compute; reflexivity.
Qed.

Lemma splitter_characterisation_witness :
  let code := lit "f (a := 1) := (b := 2)" in
  extract_statement_and_proof_from_code code
  = Some (lit "f (a := 1)", lit "(b := 2)")
  /\ extract_statement_and_proof_from_code (lit "f (a := 1")
     = Some (lit "f (a", lit "1").
Proof.
  cbv zeta. split.
  - destruct splitter_characterisation as [H _].
    destruct (H (lit "f (a := 1) := (b := 2)")) as (_ & Hsplit & _).
    apply (Hsplit 11).
    + split; reflexivity.
    + repeat split; reflexivity.
    + intros j Hj Ha [Hz _].
      do 11 (destruct j as [|j]; [destruct Ha as [Ha _]; try discriminate Ha;
                                 discriminate Hz|]).
      lia.
  - destruct splitter_characterisation as [H _].
    destruct (H (lit "f (a := 1")) as (_ & _ & Hfall).
    apply (Hfall 5).
    + split; reflexivity.
    + intros j [Ha Hb] [Hz _].
      do 9 (destruct j as [|j]; [try discriminate Ha; discriminate Hz|]).
      destruct j; discriminate Ha.
    + intros j Hj [Ha _].
      do 5 (destruct j as [|j]; [discriminate Ha|]). lia.
Defined.

(** ** Blank and non-blank lines *)

Lemma dropwhile_nil (f : char -> bool) (s : str) :
  Py.dropwhile f s = [] <-> forallb f s = true.
Proof.
  induction s as [|c s IH]; simpl; [tauto|].
  destruct (f c); simpl; [exact IH|]. split; discriminate.
Qed.

Lemma dropwhile_head (f : char -> bool) (s : str) (c : char) (t : str) :
  Py.dropwhile f s = c :: t -> f c = false.
Proof.
  induction s as [|d s IH]; simpl; [discriminate|].
  destruct (f d) eqn:E; [exact IH|]. intros [= -> _]. exact E.
Qed.

Lemma forallb_rev (f : char -> bool) (s : str) :
  forallb f (rev s) = forallb f s.
Proof.
  apply eq_true_iff_eq. rewrite !forallb_forall. split; intros H x Hx.
  - apply H. apply in_rev in Hx. exact Hx.
  - apply H. apply in_rev. exact Hx.
Qed.

Lemma strip_nil (s : str) :
  Py.strip s = [] <-> forallb Py.isspace s = true.
Proof.
  unfold Py.strip, Py.rstrip, Py.lstrip. split.
  - intros H.
    assert (Py.dropwhile Py.isspace (rev (Py.dropwhile Py.isspace s)) = [])
      as H' by (rewrite <- (rev_involutive (Py.dropwhile _ (rev _))), H;
                reflexivity).
    apply dropwhile_nil in H'. rewrite forallb_rev in H'.
    destruct (Py.dropwhile Py.isspace s) as [|c t] eqn:E.
    + apply dropwhile_nil. exact E.
    + apply dropwhile_head in E. simpl in H'. rewrite E in H'. discriminate.
  - intros H. apply dropwhile_nil in H. rewrite H. reflexivity.
Qed.

Lemma split_nil (s : str) :
  Py.split s = [] <-> forallb Py.isspace s = true.
Proof.
  induction s as [|c s IH]; simpl; [tauto|].
  destruct (Py.isspace c) eqn:E; simpl; [exact IH|].
  split; [|discriminate].
  destruct s as [|d t]; [discriminate|].
  destruct (Py.isspace d); [discriminate|].
  destruct (Py.split (d :: t)); discriminate.
Qed.

Lemma nonblank_iff (line : str) :
  nonblank line <-> nonempty (Py.strip line) = true.
Proof.
  unfold nonblank. rewrite split_nil, <- strip_nil.
  destruct (Py.strip line); simpl; split; congruence.
Qed.

Lemma dot_line_nonblank (n : nat) : nonblank (Py.spaces n ++ lit ".").
Proof.
  unfold nonblank. rewrite split_nil, forallb_app.
  cbn. rewrite andb_false_r. discriminate.
Qed.

Lemma clean_line_nonblank (line : str) : Forall nonblank (clean_line line).
Proof.
  unfold clean_line.
  destruct (nonempty (Py.strip (Py.rstrip _))) eqn:E; cbn [negb];
    [|constructor].
  destruct (Py.startswith_any _ _).
  - constructor; [apply dot_line_nonblank|].
    destruct (nonempty (Py.strip (Py.spaces _ ++ _))) eqn:R; [|constructor].
    constructor; [apply nonblank_iff; exact R | constructor].
  - constructor; [apply nonblank_iff; exact E | constructor].
Qed.

(** Every normalized line has a token. *)
Lemma cleaned_lines_nonblank (code : str) :
  Forall nonblank (cleaned_lines (new_parser code)).
Proof.
  cbn [cleaned_lines new_parser]. unfold strip_comments_and_blank_lines.
  induction (Py.splitlines _) as [|l ls IH]; cbn [flat_map]; [constructor|].
  apply Forall_app. split; [apply clean_line_nonblank | exact IH].
Qed.

(** ** The block scanner *)

Lemma Forall_skipn {A} (P : A -> Prop) (n : nat) (l : list A) :
  Forall P l -> Forall P (skipn n l).
Proof.
  revert l; induction n as [|n IH]; intros [|x l] H; cbn [skipn]; auto.
  apply IH. inversion H; assumption.
Qed.

(** The scanner's loop appends one line for every index it passes, as
    long as no passed line is blank. *)
Lemma block_loop_spec (key : str) (start_indent : nat) (rest : list str) :
  Forall nonblank rest ->
  forall (block_lines : list str) (i : nat),
    let r := block_loop key start_indent rest block_lines i in
    length (fst r) + i = length block_lines + snd r
    /\ i <= snd r <= i + length rest.
Proof.
  induction 1 as [|line rest' Hline Hrest IH]; intros block_lines i;
    cbn [block_loop].
  - cbn. lia.
  - apply nonblank_iff in Hline. rewrite Hline. cbn [negb].
    assert (forall r : list str * nat,
               length (fst r) + (i + 1)
               = length (block_lines ++ [line]) + snd r
               /\ i + 1 <= snd r <= i + 1 + length rest' ->
               length (fst r) + i = length block_lines + snd r
               /\ i <= snd r <= i + length (line :: rest')) as Hstep.
    { intros r. rewrite length_app. cbn [length]. lia. }
    destruct (start_indent <? get_indent line); [apply Hstep, IH|].
    destruct (get_indent line =? start_indent); [|cbn; lia].
    destruct (Py.mem key DOT_KEYS); [cbn; lia|].
    destruct (negb _); [apply Hstep, IH | cbn; lia].
Qed.

Lemma get_block_from_lid_ret (self : LeanCodeParser) (start : nat)
    (keys : option (list str)) :
  Forall nonblank (cleaned_lines self) ->
  exists r, get_block_from_lid self start keys = Ret r.
Proof.
  intros Hnb. unfold get_block_from_lid.
  destruct (nth_error (cleaned_lines self) start) as [start_line|] eqn:E;
    [|eauto].
  assert (nonblank start_line) as Hs.
  { apply (proj1 (Forall_forall _ _) Hnb). apply (nth_error_In _ _ E). }
  destruct (Py.split start_line) as [|key ts] eqn:T; [contradiction|].
  destruct (negb (Py.mem key (default_keys keys))); [eauto|].
  pose proof (block_loop_spec key (get_indent start_line)
                (skipn (start + 1) (cleaned_lines self))
                (Forall_skipn _ _ _ Hnb) [start_line] (start + 1)) as Hl.
  destruct (block_loop _ _ _ _ _) as [block_lines i]. cbn in Hl.
  destruct block_lines as [|l0 bl]; [cbn in Hl; lia|].
  unfold parse_block. cbv beta iota zeta.
  destruct (Py.mem key DOT_KEYS); cbv beta iota zeta.
  - cbn [bind]. eauto.
  - destruct (extract_statement_and_proof_from_code _) as [[st pr]|];
      cbn [bind]; eauto.
Qed.

Lemma get_block_from_lid_some (self : LeanCodeParser) (start : nat)
    (keys : option (list str)) (b : Block) :
  Forall nonblank (cleaned_lines self) ->
  get_block_from_lid self start keys = Ret (Some b) ->
  blk_start b = start
  /\ start <= blk_end b
  /\ blk_end b < length (cleaned_lines self)
  /\ length (blk_lines b) = blk_end b - blk_start b + 1.
Proof.
  intros Hnb. unfold get_block_from_lid.
  destruct (nth_error (cleaned_lines self) start) as [start_line|] eqn:E;
    [|discriminate].
  assert (start < length (cleaned_lines self)) as Hlt
      by (apply nth_error_Some; congruence).
  destruct (Py.split start_line) as [|key ts]; [discriminate|].
  destruct (negb (Py.mem key (default_keys keys))); [discriminate|].
  pose proof (block_loop_spec key (get_indent start_line)
                (skipn (start + 1) (cleaned_lines self))
                (Forall_skipn _ _ _ Hnb) [start_line] (start + 1)) as Hl.
  rewrite length_skipn in Hl.
  destruct (block_loop _ _ _ _ _) as [block_lines i]. cbn in Hl.
  destruct (parse_block block_lines key) as [info| |]; cbn [bind];
    try discriminate.
  intros [= <-]. cbn [blk_start blk_end blk_lines]. lia.
Qed.

(** ** C9 *)

(** C9. On the normalized lines of any text [get_block_from_lid] returns
    for every start index and key set: every normalized line has a token,
    so reading the first token cannot fail.  The result is [None] when the
    index is at or past the end, and when the first token of the start
    line is not among the keys. *)
Theorem get_block_from_lid_total (code : str) (start : nat)
    (keys : option (list str)) :
  let p := new_parser code in
  Forall nonblank (cleaned_lines p)
  /\ (exists r, get_block_from_lid p start keys = Ret r)
  /\ (length (cleaned_lines p) <= start ->
      get_block_from_lid p start keys = Ret None)
  /\ (forall line key ts,
         nth_error (cleaned_lines p) start = Some line ->
         Py.split line = key :: ts ->
         ~ In key (default_keys keys) ->
         get_block_from_lid p start keys = Ret None).
Proof.
  intros p. pose proof (cleaned_lines_nonblank code) as Hnb. fold p in Hnb.
  split; [exact Hnb|]. split; [apply get_block_from_lid_ret; exact Hnb|].
  split.
  - intros Hlen. unfold get_block_from_lid.
    rewrite (proj2 (nth_error_None _ _) Hlen). reflexivity.
  - intros line key ts Hline Hsplit Hkey. unfold get_block_from_lid.
    rewrite Hline, Hsplit.
    destruct (Py.mem key (default_keys keys)) eqn:M; [|reflexivity].
    apply mem_In in M. contradiction.
Qed.

Lemma get_block_from_lid_total_witness :
  let p := new_parser (lit "theorem a : P := trivial") in
  get_block_from_lid p 5 None = Ret None
  /\ get_block_from_lid p 0 (Some [lit "have"]) = Ret None.
Proof.
  cbv zeta. split.
  - destruct (get_block_from_lid_total (lit "theorem a : P := trivial") 5 None)
      as (_ & _ & H & _).
    apply H. vm_compute. lia.
  - destruct (get_block_from_lid_total (lit "theorem a : P := trivial") 0
                (Some [lit "have"])) as (_ & _ & _ & H).
    apply (H (lit "theorem a : P := trivial") (lit "theorem")
             [lit "a"; lit ":"; lit "P"; lit ":="; lit "trivial"]).
    + reflexivity.
    + reflexivity.
    + intros [E|[]]. discriminate E.
Defined.

(** ** The all-blocks extractor *)

Lemma extract_loop_origin (self : LeanCodeParser) (keys : option (list str))
    (allow_overlap : bool) (minp maxp : Z) (fuel : nat) :
  forall i blocks,
    extract_loop fuel self keys allow_overlap minp maxp i = Ret blocks ->
    Forall (fun b => exists j, get_block_from_lid self j keys = Ret (Some b))
           blocks.
Proof.
  induction fuel as [|fuel IH]; intros i blocks; cbn [extract_loop];
    destruct (length (cleaned_lines self) <=? i);
    try (intros [= <-]; constructor); try discriminate.
  destruct (get_block_from_lid self i keys) as [[b|]| |] eqn:G; cbn [bind];
    try discriminate; [|apply IH].
  destruct (proof_lines_ok minp maxp b); [|apply IH].
  destruct (extract_loop fuel _ _ _ _ _ _) as [blocks'| |] eqn:R; cbn [bind];
    try discriminate.
  intros [= <-]. constructor; [eauto | exact (IH _ _ R)].
Qed.

Lemma extract_loop_sorted (self : LeanCodeParser) (keys : option (list str))
    (minp maxp : Z) (fuel : nat) :
  Forall nonblank (cleaned_lines self) ->
  forall i blocks,
    extract_loop fuel self keys false minp maxp i = Ret blocks ->
    StronglySorted (fun b1 b2 => blk_end b1 < blk_start b2) blocks
    /\ Forall (fun b => i <= blk_start b) blocks.
Proof.
  intros Hnb. induction fuel as [|fuel IH]; intros i blocks;
    cbn [extract_loop];
    destruct (length (cleaned_lines self) <=? i);
    try (intros [= <-]; split; constructor); try discriminate.
  assert (forall blocks,
             extract_loop fuel self keys false minp maxp (i + 1) = Ret blocks ->
             StronglySorted (fun b1 b2 => blk_end b1 < blk_start b2) blocks
             /\ Forall (fun b => i <= blk_start b) blocks) as Hnext.
  { intros bs Hbs. destruct (IH _ _ Hbs) as [Hs Hf]. split; [exact Hs|].
    revert Hf. apply Forall_impl. intros; lia. }
  destruct (get_block_from_lid self i keys) as [[b|]| |] eqn:G; cbn [bind];
    try discriminate; [|apply Hnext].
  destruct (proof_lines_ok minp maxp b); [|apply Hnext].
  cbn [negb].
  destruct (extract_loop fuel self keys false minp maxp (blk_end b + 1))
    as [blocks'| |] eqn:R; cbn [bind]; try discriminate.
  intros [= <-].
  destruct (get_block_from_lid_some _ _ _ _ Hnb G) as (Hst & Hle & _ & _).
  destruct (IH _ _ R) as [Hs Hf]. split.
  - constructor; [exact Hs|]. revert Hf. apply Forall_impl. intros; lia.
  - constructor; [lia|]. revert Hf. apply Forall_impl. intros; lia.
Qed.

Lemma extract_loop_total (self : LeanCodeParser) (keys : option (list str))
    (allow_overlap : bool) (minp maxp : Z) (fuel : nat) :
  Forall nonblank (cleaned_lines self) ->
  forall i,
    length (cleaned_lines self) - i <= fuel ->
    exists blocks,
      extract_loop fuel self keys allow_overlap minp maxp i = Ret blocks.
Proof.
  intros Hnb. induction fuel as [|fuel IH]; intros i Hfuel;
    cbn [extract_loop];
    destruct (Nat.leb_spec (length (cleaned_lines self)) i); eauto; try lia.
  destruct (get_block_from_lid_ret self i keys Hnb) as [[b|] G]; rewrite G;
    cbn [bind]; [|apply IH; lia].
  destruct (proof_lines_ok minp maxp b); [|apply IH; lia].
  destruct (get_block_from_lid_some _ _ _ _ Hnb G) as (Hst & Hle & _ & _).
  destruct (IH ((if negb allow_overlap then blk_end b else i) + 1))
    as [blocks' R]; [destruct allow_overlap; cbn [negb]; lia|].
  rewrite R. cbn [bind]. eauto.
Qed.

(** Fuel beyond the number of remaining lines changes nothing. *)
Lemma extract_loop_fuel (self : LeanCodeParser) (keys : option (list str))
    (allow_overlap : bool) (minp maxp : Z) :
  Forall nonblank (cleaned_lines self) ->
  forall fuel1 fuel2 i,
    length (cleaned_lines self) - i <= fuel1 ->
    length (cleaned_lines self) - i <= fuel2 ->
    extract_loop fuel1 self keys allow_overlap minp maxp i
    = extract_loop fuel2 self keys allow_overlap minp maxp i.
Proof.
  intros Hnb. induction fuel1 as [|fuel1 IH]; intros [|fuel2] i H1 H2;
    cbn [extract_loop];
    destruct (Nat.leb_spec (length (cleaned_lines self)) i);
    try reflexivity; try lia.
  destruct (get_block_from_lid self i keys) as [[b|]| |] eqn:G; cbn [bind];
    try reflexivity; [|apply IH; lia].
  destruct (proof_lines_ok minp maxp b); [|apply IH; lia].
  destruct (get_block_from_lid_some _ _ _ _ Hnb G) as (Hst & Hle & _ & _).
  rewrite (IH fuel2 ((if negb allow_overlap then blk_end b else i) + 1));
    [reflexivity | |]; destruct allow_overlap; cbn [negb]; lia.
Qed.

Lemma extract_from_done (self : LeanCodeParser) (keys : option (list str))
    (allow_overlap : bool) (minp maxp : Z) (i : nat) :
  length (cleaned_lines self) <= i ->
  extract_from self keys allow_overlap minp maxp i = Ret [].
Proof.
  intros H. unfold extract_from.
  replace (length (cleaned_lines self) - i) with 0 by lia.
  cbn [extract_loop]. rewrite (proj2 (Nat.leb_le _ _) H). reflexivity.
Qed.

(** One round of the extractor's loop, read off the scan from [i]. *)
Lemma extract_from_step (self : LeanCodeParser) (keys : option (list str))
    (allow_overlap : bool) (minp maxp : Z) (i : nat) :
  Forall nonblank (cleaned_lines self) ->
  i < length (cleaned_lines self) ->
  extract_from self keys allow_overlap minp maxp i
  = (block <- get_block_from_lid self i keys ;;
     match block with
     | Some b =>
         if proof_lines_ok minp maxp b then
           blocks <- extract_from self keys allow_overlap minp maxp
                       ((if negb allow_overlap then blk_end b else i) + 1) ;;
           Ret (b :: blocks)
         else extract_from self keys allow_overlap minp maxp (i + 1)
     | None => extract_from self keys allow_overlap minp maxp (i + 1)
     end).
Proof.
  intros Hnb Hi. unfold extract_from.
  destruct (length (cleaned_lines self) - i) as [|fuel] eqn:F; [lia|].
  cbn [extract_loop]. rewrite (proj2 (Nat.leb_gt _ _) Hi).
  destruct (get_block_from_lid self i keys) as [[b|]| |] eqn:G; cbn [bind];
    try reflexivity.
  - destruct (get_block_from_lid_some _ _ _ _ Hnb G) as (Hst & Hle & _ & _).
    destruct (proof_lines_ok minp maxp b).
    + rewrite (extract_loop_fuel self keys allow_overlap minp maxp Hnb fuel
                 (length (cleaned_lines self)
                  - ((if negb allow_overlap then blk_end b else i) + 1)));
        [reflexivity | |]; destruct allow_overlap; cbn [negb]; lia.
    + apply extract_loop_fuel; [exact Hnb | lia | lia].
  - apply extract_loop_fuel; [exact Hnb | lia | lia].
Qed.

Lemma StronglySorted_nth {A} (R : A -> A -> Prop) (l : list A) :
  StronglySorted R l ->
  forall n1 n2 a b,
    n1 < n2 -> nth_error l n1 = Some a -> nth_error l n2 = Some b -> R a b.
Proof.
  induction 1 as [|x l Hs IH Hall]; intros n1 n2 a b Hlt H1 H2.
  - destruct n1; discriminate H1.
  - destruct n2 as [|n2]; [lia|]. cbn [nth_error] in H2.
    destruct n1 as [|n1].
    + injection H1 as <-.
      apply (proj1 (Forall_forall _ _) Hall). exact (nth_error_In _ _ H2).
    + cbn [nth_error] in H1. apply (IH n1 n2); [lia | exact H1 | exact H2].
Qed.

(** ** C8 *)

(** C8. Every block the scanner returns on the normalized lines of a text
    has [start <= end] and as many lines as [end - start + 1]; so has
    every block of the extractor's output, overlapping or not. *)
Theorem block_span_invariant (code : str) :
  let p := new_parser code in
  (forall start keys b,
      get_block_from_lid p start keys = Ret (Some b) ->
      blk_start b <= blk_end b
      /\ length (blk_lines b) = blk_end b - blk_start b + 1)
  /\ (forall keys allow_overlap minp maxp blocks,
         extract_all_blocks p keys allow_overlap minp maxp = Ret blocks ->
         Forall (fun b => blk_start b <= blk_end b
                          /\ length (blk_lines b)
                             = blk_end b - blk_start b + 1) blocks).
Proof.
  intros p. pose proof (cleaned_lines_nonblank code) as Hnb. fold p in Hnb.
  assert (forall start keys b,
             get_block_from_lid p start keys = Ret (Some b) ->
             blk_start b <= blk_end b
             /\ length (blk_lines b) = blk_end b - blk_start b + 1) as Hscan.
  { intros start keys b G.
    destruct (get_block_from_lid_some _ _ _ _ Hnb G) as (Hst & Hle & _ & Hlen).
    split; [lia | exact Hlen]. }
  split; [exact Hscan|].
  intros keys allow_overlap minp maxp blocks E.
  apply extract_loop_origin in E. revert E. apply Forall_impl.
  intros b (j & G). exact (Hscan j keys b G).
Qed.

Lemma block_span_invariant_witness :
  exists b,
    get_block_from_lid
      (new_parser (lit "theorem a : P := by" ++ [nl] ++ lit "  simp"
                   ++ [nl] ++ lit "  rfl")) 0 None = Ret (Some b)
    /\ blk_start b <= blk_end b
    /\ length (blk_lines b) = blk_end b - blk_start b + 1
    /\ blk_end b = 2.
Proof.
  eexists. split; [vm_compute; reflexivity|].
  destruct (block_span_invariant
              (lit "theorem a : P := by" ++ [nl] ++ lit "  simp"
               ++ [nl] ++ lit "  rfl")) as [H _].
  destruct (H 0 None _ eq_refl) as [H1 H2].
  split; [exact H1|]. split; [exact H2 | reflexivity].
Defined.

(** ** C2 *)

(** C2. Without overlap the extractor returns, for every text, key set
    and filter bounds, a list in which every block ends before the next
    one starts: the list is sorted by start index and no line index lies
    in two of its blocks.  After a block is kept at index [i] the scan
    goes on at the index right after the block's end; after a rejected
    index it goes on at [i + 1]. *)
Theorem nonoverlapping_extraction (code : str) (keys : option (list str))
    (minp maxp : Z) :
  let p := new_parser code in
  exists blocks,
    extract_all_blocks p keys false minp maxp = Ret blocks
    /\ StronglySorted (fun b1 b2 => blk_start b1 < blk_start b2) blocks
    /\ (forall n1 n2 b1 b2 l,
           nth_error blocks n1 = Some b1 -> nth_error blocks n2 = Some b2 ->
           n1 <> n2 -> covers b1 l -> ~ covers b2 l)
    /\ (forall i,
           i < length (cleaned_lines p) ->
           extract_from p keys false minp maxp i
           = (block <- get_block_from_lid p i keys ;;
              match block with
              | Some b =>
                  if proof_lines_ok minp maxp b then
                    rest <- extract_from p keys false minp maxp
                              (blk_end b + 1) ;;
                    Ret (b :: rest)
                  else extract_from p keys false minp maxp (i + 1)
              | None => extract_from p keys false minp maxp (i + 1)
              end)).
Proof.
  intros p. pose proof (cleaned_lines_nonblank code) as Hnb. fold p in Hnb.
  destruct (extract_loop_total p keys false minp maxp
              (length (cleaned_lines p) - 0) Hnb 0 (le_n _)) as [blocks E].
  exists blocks. split; [exact E|].
  destruct (extract_loop_sorted p keys minp maxp _ Hnb _ _ E) as [Hs _].
  assert (Forall (fun b => blk_start b <= blk_end b) blocks) as Hspan.
  { pose proof (extract_loop_origin _ _ _ _ _ _ _ _ E) as Ho.
    revert Ho. apply Forall_impl. intros b (j & G).
    destruct (get_block_from_lid_some _ _ _ _ Hnb G) as (Hst & Hle & _).
    lia. }
  split; [|split].
  - clear E. induction Hs as [|b bs Hs IH Hall]; [constructor|].
    inversion Hspan as [|? ? Hb Hbs]; subst.
    constructor; [exact (IH Hbs)|].
    revert Hall. apply Forall_impl. intros; lia.
  - intros n1 n2 b1 b2 l H1 H2 Hne [C1 C2] [C3 C4].
    destruct (Nat.lt_trichotomy n1 n2) as [Hlt|[Heq|Hgt]]; [|contradiction|].
    + pose proof (StronglySorted_nth _ _ Hs n1 n2 b1 b2 Hlt H1 H2). cbv beta in *. lia.
    + pose proof (StronglySorted_nth _ _ Hs n2 n1 b2 b1 Hgt H2 H1). cbv beta in *. lia.
  - intros i Hi. apply (extract_from_step p keys false minp maxp i Hnb Hi).
Qed.

Lemma nonoverlapping_extraction_witness :
  let code := lit "theorem t : P := by" ++ [nl] ++ lit "  have a : P := by"
              ++ [nl] ++ lit "    simp" ++ [nl] ++ lit "  have b : Q := c"
              ++ [nl] ++ lit "  exact a" in
  exists blocks,
    extract_all_blocks (new_parser code) (Some [lit "have"]) false 0 100
    = Ret blocks
    /\ map (fun b => (blk_start b, blk_end b)) blocks = [(1, 2); (3, 3)]
    /\ (forall b1 b2,
           nth_error blocks 0 = Some b1 -> nth_error blocks 1 = Some b2 ->
           covers b1 2 -> ~ covers b2 2)
    /\ extract_from (new_parser code) (Some [lit "have"]) false 0 100 1
       = Ret blocks.
Proof.
  cbv zeta.
  destruct (nonoverlapping_extraction
              (lit "theorem t : P := by" ++ [nl] ++ lit "  have a : P := by"
               ++ [nl] ++ lit "    simp" ++ [nl] ++ lit "  have b : Q := c"
               ++ [nl] ++ lit "  exact a") (Some [lit "have"]) 0 100)
    as (blocks & E & _ & Hdisj & Hresume).
  exists blocks. split; [exact E|]. split; [|split].
  - vm_compute in E. injection E as <-. reflexivity.
  - intros b1 b2 H1 H2. apply (Hdisj 0 1 b1 b2 2 H1 H2). discriminate.
  - rewrite Hresume by (vm_compute; lia).
    vm_compute in E. injection E as <-. vm_compute. reflexivity.
Defined.

(** ** C3 *)

(** C3 (the source departs from it). The proof text of the sub-goal
    [have h2 : P := h] is ["h"], and the first ["h"] of the block text is
    the one of the keyword: stubbing turns the line into
    [sorryave h2 : P := h], and the extractor, which found one block
    before, finds none afterwards. *)
Theorem stub_loses_block :
  let src := lit "theorem foo (h : P) : P := by" ++ [nl]
             ++ lit "  have h2 : P := h" ++ [nl] ++ lit "  exact h2" in
  let stubbed := lit "theorem foo (h : P) : P := by" ++ [nl]
                 ++ lit "  sorryave h2 : P := h" ++ [nl] ++ lit "  exact h2" in
  (exists b,
      extract_all_blocks (new_parser src) (Some default_sorry_keys) false 0
        default_max_proof_lines = Ret [b]
      /\ blk_lines b = [lit "  have h2 : P := h"]
      /\ proof (blk_info b) = lit "h"
      /\ proof_style (blk_info b) = term)
  /\ create_proof_with_sorries src default_sorry_keys default_max_sorry_cnt 0
       default_max_proof_lines = Ret stubbed
  /\ extract_all_blocks (new_parser stubbed) (Some default_sorry_keys) false 0
       default_max_proof_lines = Ret [].
Proof.
  cbv zeta. split; [|split].
  - eexists. split; [vm_compute; reflexivity|]. repeat split; reflexivity.
  - vm_compute. reflexivity.
  - vm_compute. reflexivity.
Qed.

(** ** The keyword rewrite of the composer *)

Lemma skipn_length_app (a : str) (n : nat) (l : str) :
  skipn (length a + n) (a ++ l) = skipn n l.
Proof. induction a as [|x a IH]; [reflexivity | exact IH]. Qed.

Lemma find_after_blank (ws : str) (c : char) (sub rest : str) :
  Py.isspace c = false -> forallb Py.isspace ws = true ->
  Py.find (c :: sub) (ws ++ c :: (sub ++ rest)) = Some (length ws).
Proof.
  intros Hc. induction ws as [|w ws IH]; intros Hws.
  - cbn [app length Py.find].
    assert (Py.startswith (c :: sub) (c :: sub ++ rest) = true) as H
        by (apply startswith_app; exists rest; reflexivity).
    rewrite H. reflexivity.
  - cbn [forallb] in Hws. apply andb_true_iff in Hws. destruct Hws as [Hw Hws].
    cbn [app length Py.find Py.startswith].
    destruct (N.eqb_spec c w) as [->|Hne]; [congruence|].
    cbn [andb]. rewrite (IH Hws). reflexivity.
Qed.

(** On a block that opens with the keyword [theorem] the rewrite touches
    the keyword and nothing else. *)
Lemma leading_theorem_token_rewritten (ws rest : str) :
  forallb Py.isspace ws = true ->
  Py.replace1 (lit "theorem ") (lit "lemma ") (ws ++ lit "theorem " ++ rest)
  = ws ++ lit "lemma " ++ rest.
Proof.
  intros Hws. unfold Py.replace1.
  change (lit "theorem ") with (ch "t" :: lit "heorem ").
  change ((ch "t" :: lit "heorem ") ++ rest)
    with (ch "t" :: (lit "heorem " ++ rest)) at 1.
  rewrite (find_after_blank ws (ch "t") (lit "heorem ") rest eq_refl Hws).
  change (ch "t" :: (lit "heorem " ++ rest))
    with ((ch "t" :: lit "heorem ") ++ rest).
  rewrite firstn_length_app. f_equal. f_equal.
  rewrite skipn_length_app.
  rewrite <- (Nat.add_0_r (length (ch "t" :: lit "heorem "))).
  rewrite skipn_length_app. reflexivity.
Qed.

(** ** C4 *)

(** C4 (the source departs from it). A snippet that opens with [lemma]
    has no leading [theorem ] token, and the first ["theorem "] found in
    it is part of the body: the reference [my_theorem h] comes out as
    [my_lemma h]. *)
Theorem lemma_body_rewritten :
  let main := lit "theorem main (h : P) : P := by" ++ [nl] ++ lit "  exact h" in
  let snippet := lit "lemma foo (h : P) : P := by" ++ [nl]
                 ++ lit "  exact my_theorem h" in
  exists final_code,
    create_statement_with_lemmas main [snippet]
    = Ret (final_code,
           [lit "lemma foo (h : P) : P := by" ++ [nl]
            ++ lit "  exact my_lemma h"])
    /\ (exists b,
           extract_all_blocks (new_parser snippet)
             (Some [lit "theorem"; lit "lemma"]) false 0 10000 = Ret [b]
           /\ blk_key b = lit "lemma"
           /\ Py.join [nl] (blk_lines b) = snippet).
Proof.
  cbv zeta. eexists. split; [vm_compute; reflexivity|].
  eexists. split; [vm_compute; reflexivity|]. split; reflexivity.
Qed.

(** ** The shape of a scanned block *)

(** What the scanner's result is made of. *)
Lemma get_block_from_lid_inv (self : LeanCodeParser) (start : nat)
    (keys : option (list str)) (b : Block) :
  get_block_from_lid self start keys = Ret (Some b) ->
  exists start_line key ts,
    nth_error (cleaned_lines self) start = Some start_line
    /\ Py.split start_line = key :: ts
    /\ Py.mem key (default_keys keys) = true
    /\ blk_start b = start
    /\ blk_key b = key
    /\ blk_indent b = get_indent start_line
    /\ blk_lines b
       = fst (block_loop key (get_indent start_line)
                (skipn (start + 1) (cleaned_lines self))
                [start_line] (start + 1))
    /\ blk_end b
       = snd (block_loop key (get_indent start_line)
                (skipn (start + 1) (cleaned_lines self))
                [start_line] (start + 1)) - 1
    /\ parse_block (blk_lines b) key = Ret (blk_info b).
Proof.
  unfold get_block_from_lid.
  destruct (nth_error (cleaned_lines self) start) as [start_line|] eqn:E;
    [|discriminate].
  destruct (Py.split start_line) as [|key ts] eqn:T; [discriminate|].
  destruct (Py.mem key (default_keys keys)) eqn:M; cbn [negb]; [|discriminate].
  destruct (block_loop _ _ _ _ _) as [block_lines i] eqn:L.
  destruct (parse_block block_lines key) as [info| |] eqn:P; cbn [bind];
    try discriminate.
  intros [= <-]. exists start_line, key, ts.
  cbn [blk_start blk_key blk_indent blk_lines blk_end blk_info].
  rewrite L. cbn [fst snd]. repeat split; auto.
Qed.

(** The loop takes a prefix of the lines it is given; the lines it takes
    are at least as indented as the block's first line, more so under a
    bullet key; and the line it stops at is not more indented. *)
Lemma block_loop_shape (key : str) (start_indent : nat) (rest : list str) :
  Forall nonblank rest ->
  forall (block_lines : list str) (i : nat),
    let r := block_loop key start_indent rest block_lines i in
    fst r = block_lines ++ firstn (snd r - i) rest
    /\ Forall (fun l => start_indent <= get_indent l) (firstn (snd r - i) rest)
    /\ (Py.mem key DOT_KEYS = true ->
        Forall (fun l => start_indent < get_indent l)
               (firstn (snd r - i) rest))
    /\ (forall line, nth_error rest (snd r - i) = Some line ->
                     get_indent line <= start_indent).
Proof.
  induction 1 as [|line rest' Hline Hrest IH]; intros block_lines i;
    cbn [block_loop].
  - cbn [fst snd]. rewrite Nat.sub_diag. cbn [firstn]. rewrite app_nil_r.
    repeat split; auto. intros line H. discriminate H.
  - pose proof Hline as Hnb. apply nonblank_iff in Hnb. rewrite Hnb.
    cbn [negb].
    assert (forall P : nat -> Prop,
               (Py.mem key DOT_KEYS = true -> P (get_indent line)) ->
               start_indent <= get_indent line ->
               let r := block_loop key start_indent rest'
                          (block_lines ++ [line]) (i + 1) in
               (Py.mem key DOT_KEYS = true ->
                Forall (fun l => P (get_indent l)) (firstn (snd r - (i + 1)) rest'))
               ->
               fst r = block_lines ++ firstn (snd r - i) (line :: rest')
               /\ Forall (fun l => start_indent <= get_indent l)
                         (firstn (snd r - i) (line :: rest'))
               /\ (Py.mem key DOT_KEYS = true ->
                   Forall (fun l => P (get_indent l))
                          (firstn (snd r - i) (line :: rest')))
               /\ (forall l, nth_error (line :: rest') (snd r - i) = Some l ->
                             get_indent l <= start_indent)) as Hstep.
    { intros P HP Hge r HPr.
      destruct (IH (block_lines ++ [line]) (i + 1)) as (E & Hall & _ & Hnext).
      destruct (block_loop_spec key start_indent rest' Hrest
                  (block_lines ++ [line]) (i + 1)) as (_ & Hle & _).
      fold r in E, Hall, Hnext, Hle.
      replace (snd r - i) with (S (snd r - (i + 1))) by lia.
      cbn [firstn nth_error]. rewrite E, <- app_assoc. cbn [app].
      split; [reflexivity|]. split; [constructor; assumption|].
      split; [|exact Hnext].
      intros Hd. constructor; [exact (HP Hd) | exact (HPr Hd)]. }
    assert (forall block_lines0,
               let r := (block_lines0, i) in
               get_indent line <= start_indent ->
               fst r = block_lines0 ++ firstn (snd r - i) (line :: rest')
               /\ Forall (fun l => start_indent <= get_indent l)
                         (firstn (snd r - i) (line :: rest'))
               /\ (Py.mem key DOT_KEYS = true ->
                   Forall (fun l => start_indent < get_indent l)
                          (firstn (snd r - i) (line :: rest')))
               /\ (forall l, nth_error (line :: rest') (snd r - i) = Some l ->
                             get_indent l <= start_indent)) as Hstop.
    { intros bl r Hle. cbn [fst snd]. rewrite Nat.sub_diag.
      cbn [firstn nth_error]. rewrite app_nil_r.
      repeat split; auto. intros l [= <-]. exact Hle. }
    destruct (Nat.ltb_spec start_indent (get_indent line)) as [Hlt|Hge].
    + apply (Hstep (fun n => start_indent < n)); [auto | lia |].
      intros Hd. apply (IH (block_lines ++ [line]) (i + 1)). exact Hd.
    + destruct (Nat.eqb_spec (get_indent line) start_indent) as [Heq|Hne];
        [|apply Hstop; lia].
      destruct (Py.mem key DOT_KEYS) eqn:Hd; [apply Hstop; lia|].
      destruct (negb _); [|apply Hstop; lia].
      apply (Hstep (fun n => start_indent < n)); [discriminate | lia |].
      discriminate.
Qed.

Lemma skipn_nth_error_cons {A} (l : list A) (n : nat) (x : A) :
  nth_error l n = Some x -> skipn n l = x :: skipn (n + 1) l.
Proof.
  revert l; induction n as [|n IH]; intros [|y l] H; try discriminate H.
  - injection H as ->. reflexivity.
  - cbn [skipn Nat.add]. apply IH. exact H.
Qed.

Lemma scanned_block_slice (code : str) (start : nat)
    (keys : option (list str)) (b : Block) :
  get_block_from_lid (new_parser code) start keys = Ret (Some b) ->
  blk_lines b
  = firstn (blk_end b - blk_start b + 1)
      (skipn (blk_start b) (cleaned_lines (new_parser code))).
Proof.
  intros G. pose proof (cleaned_lines_nonblank code) as Hnb.
  destruct (get_block_from_lid_inv _ _ _ _ G)
    as (start_line & key & ts & Hnth & _ & _ & Hst & _ & _ & Hl & He & _).
  pose proof (block_loop_shape key (get_indent start_line) _
                (Forall_skipn _ (start + 1) _ Hnb) [start_line] (start + 1))
    as (Hshape & _).
  pose proof (block_loop_spec key (get_indent start_line) _
                (Forall_skipn _ (start + 1) _ Hnb) [start_line] (start + 1))
    as (_ & Hle & _).
  rewrite Hl, Hshape, Hst, He, (skipn_nth_error_cons _ _ _ Hnth).
  match goal with
  | |- context [snd ?r - 1 - start + 1] =>
      replace (snd r - 1 - start + 1) with (S (snd r - (start + 1))) by lia
  end.
  reflexivity.
Qed.

(** X1. For a start index that is not negative, the lines of a scanned
    block are the normalized lines from its start index to its end index,
    none left out and none reordered.  The index of the scan is a natural
    number here: the statement does not cover a negative index, which the
    source does not reject and which Python counts from the end of the
    list.  The extractor scans from index 0 upwards only, so the lines of
    every block it returns are such a slice. *)
Theorem block_lines_are_slice (code : str) (keys : option (list str)) :
  (forall (start : nat) (b : Block),
      get_block_from_lid (new_parser code) start keys = Ret (Some b) ->
      blk_start b = start
      /\ blk_lines b
         = firstn (blk_end b - blk_start b + 1)
             (skipn (blk_start b) (cleaned_lines (new_parser code))))
  /\ (forall (allow_overlap : bool) (minp maxp : Z) (blocks : list Block),
         extract_all_blocks (new_parser code) keys allow_overlap minp maxp
         = Ret blocks ->
         Forall (fun b =>
                   blk_lines b
                   = firstn (blk_end b - blk_start b + 1)
                       (skipn (blk_start b)
                              (cleaned_lines (new_parser code))))
                blocks).
Proof.
  split.
  - intros start b G. split; [|exact (scanned_block_slice _ _ _ _ G)].
    destruct (get_block_from_lid_inv _ _ _ _ G)
      as (start_line & key & ts & _ & _ & _ & Hst & _).
    exact Hst.
  - intros allow_overlap minp maxp blocks E.
    unfold extract_all_blocks, extract_from in E.
    apply extract_loop_origin in E.
    eapply Forall_impl; [|exact E].
    intros b (j & G). exact (scanned_block_slice _ _ _ _ G).
Qed.

Lemma block_lines_are_slice_witness :
  let code := lit "theorem a : P := by" ++ [nl] ++ lit "  simp" ++ [nl]
              ++ lit "theorem b : Q := rfl" in
  exists b,
    get_block_from_lid (new_parser code) 0 None = Ret (Some b)
    /\ blk_start b = 0
    /\ blk_lines b
       = firstn (blk_end b - blk_start b + 1)
           (skipn (blk_start b) (cleaned_lines (new_parser code)))
    /\ blk_lines b = [lit "theorem a : P := by"; lit "  simp"].
Proof.
  cbv zeta. eexists. split; [vm_compute; reflexivity|].
  split; [|split; [|reflexivity]];
    apply (proj1 (block_lines_are_slice
             (lit "theorem a : P := by" ++ [nl] ++ lit "  simp" ++ [nl]
              ++ lit "theorem b : Q := rfl") None) 0);
    vm_compute; reflexivity.
Defined.

(** X2. A scanned block starts at a line whose first token is its key,
    one of the accepted keys, and takes that line's indentation as its
    own.  No further line of the block is less indented than the first,
    and under a bullet key every further line is more indented.  The
    line after the block, if there is one, is not more indented than the
    block's first line. *)
Theorem block_key_and_indentation (code : str) (start : nat)
    (keys : option (list str)) (b : Block) :
  get_block_from_lid (new_parser code) start keys = Ret (Some b) ->
  In (blk_key b) (default_keys keys)
  /\ (exists line0 rest,
         blk_lines b = line0 :: rest
         /\ nth_error (cleaned_lines (new_parser code)) start = Some line0
         /\ first_token line0 = Some (blk_key b)
         /\ blk_indent b = get_indent line0
         /\ Forall (fun l => blk_indent b <= get_indent l) rest
         /\ (In (blk_key b) DOT_KEYS ->
             Forall (fun l => blk_indent b < get_indent l) rest))
  /\ (forall line,
         nth_error (cleaned_lines (new_parser code)) (blk_end b + 1)
         = Some line ->
         get_indent line <= blk_indent b).
Proof.
  intros G. pose proof (cleaned_lines_nonblank code) as Hnb.
  destruct (get_block_from_lid_inv _ _ _ _ G)
    as (start_line & key & ts & Hnth & Hsplit & Hmem & Hst & Hk & Hi & Hl
        & He & _).
  pose proof (block_loop_shape key (get_indent start_line) _
                (Forall_skipn _ (start + 1) _ Hnb) [start_line] (start + 1))
    as (Hshape & Hall & Hdot & Hnext).
  pose proof (block_loop_spec key (get_indent start_line) _
                (Forall_skipn _ (start + 1) _ Hnb) [start_line] (start + 1))
    as (_ & Hle & _).
  rewrite Hk, Hi. split; [apply mem_In; exact Hmem|]. split.
  - eexists start_line, _. split; [rewrite Hl; exact Hshape|].
    split; [exact Hnth|]. split; [unfold first_token; rewrite Hsplit; reflexivity|].
    split; [reflexivity|]. split; [exact Hall|].
    intros Hd. apply Hdot. apply mem_In. exact Hd.
  - intros line Hline. apply Hnext.
    rewrite nth_error_skipn.
    rewrite <- Hline, He. f_equal. lia.
Qed.

Lemma block_key_and_indentation_witness :
  let code := lit "theorem a : P := by" ++ [nl] ++ lit "  simp" ++ [nl]
              ++ lit "theorem b : Q := rfl" in
  exists b,
    get_block_from_lid (new_parser code) 0 None = Ret (Some b)
    /\ In (blk_key b) (default_keys None)
    /\ (forall line,
           nth_error (cleaned_lines (new_parser code)) (blk_end b + 1)
           = Some line -> get_indent line <= blk_indent b).
Proof.
  cbv zeta. eexists. split; [vm_compute; reflexivity|].
  refine ((fun H => conj (proj1 H) (proj2 (proj2 H)))
            (block_key_and_indentation
               (lit "theorem a : P := by" ++ [nl] ++ lit "  simp" ++ [nl]
                ++ lit "theorem b : Q := rfl") 0 None _ _)).
  vm_compute. reflexivity.
Defined.

(** ** The extractor with and without overlap *)

(** Every block of the output was scanned at some index from [i] on and
    passed the filter. *)
Lemma extract_loop_kept (self : LeanCodeParser) (keys : option (list str))
    (allow_overlap : bool) (minp maxp : Z) (fuel : nat) :
  Forall nonblank (cleaned_lines self) ->
  forall i blocks,
    extract_loop fuel self keys allow_overlap minp maxp i = Ret blocks ->
    Forall (fun b => exists j,
                i <= j /\ get_block_from_lid self j keys = Ret (Some b)
                /\ proof_lines_ok minp maxp b = true) blocks.
Proof.
  intros Hnb. induction fuel as [|fuel IH]; intros i blocks;
    cbn [extract_loop];
    destruct (length (cleaned_lines self) <=? i);
    try (intros [= <-]; constructor); try discriminate.
  assert (forall i' blocks,
             i <= i' ->
             extract_loop fuel self keys allow_overlap minp maxp i'
             = Ret blocks ->
             Forall (fun b => exists j,
                         i <= j /\ get_block_from_lid self j keys = Ret (Some b)
                         /\ proof_lines_ok minp maxp b = true) blocks) as Hnext.
  { intros i' bs Hi' Hbs. pose proof (IH _ _ Hbs) as Hf.
    revert Hf. apply Forall_impl. intros b (j & Hj & G & Hok).
    exists j. split; [lia | auto]. }
  destruct (get_block_from_lid self i keys) as [[b|]| |] eqn:G; cbn [bind];
    try discriminate; [|apply Hnext; lia].
  destruct (proof_lines_ok minp maxp b) eqn:Hok; [|apply Hnext; lia].
  destruct (get_block_from_lid_some _ _ _ _ Hnb G) as (Hst & Hle & _ & _).
  destruct (extract_loop fuel self keys allow_overlap minp maxp
              ((if negb allow_overlap then blk_end b else i) + 1))
    as [blocks'| |] eqn:R; cbn [bind]; try discriminate.
  intros [= <-]. constructor.
  - exists i. auto.
  - apply (Hnext ((if negb allow_overlap then blk_end b else i) + 1));
      [destruct allow_overlap; cbn [negb]; lia | exact R].
Qed.

(** With overlap allowed nothing that passes the filter is skipped. *)
Lemma extract_loop_overlap_complete (self : LeanCodeParser)
    (keys : option (list str)) (minp maxp : Z) (fuel : nat) :
  forall i blocks,
    extract_loop fuel self keys true minp maxp i = Ret blocks ->
    forall j b,
      i <= j -> get_block_from_lid self j keys = Ret (Some b) ->
      proof_lines_ok minp maxp b = true -> In b blocks.
Proof.
  induction fuel as [|fuel IH]; intros i blocks; cbn [extract_loop];
    destruct (Nat.leb_spec (length (cleaned_lines self)) i) as [Hlen|Hlen];
    try discriminate;
    try (intros _ j b Hj G _; exfalso; unfold get_block_from_lid in G;
         rewrite (proj2 (nth_error_None (cleaned_lines self) j)
                    (Nat.le_trans _ _ _ Hlen Hj)) in G;
         discriminate G).
  cbn [negb].
  destruct (get_block_from_lid self i keys) as [[b0|]| |] eqn:G0; cbn [bind];
    try discriminate.
  - destruct (proof_lines_ok minp maxp b0) eqn:Hok0.
    + destruct (extract_loop fuel self keys true minp maxp (i + 1))
        as [blocks'| |] eqn:R; cbn [bind]; try discriminate.
      intros [= <-] j b Hj G Hok.
      destruct (Nat.eq_dec j i) as [->|Hne].
      * left. congruence.
      * right. apply (IH _ _ R j b); [lia | exact G | exact Hok].
    + intros R j b Hj G Hok.
      destruct (Nat.eq_dec j i) as [->|Hne]; [congruence|].
      apply (IH _ _ R j b); [lia | exact G | exact Hok].
  - intros R j b Hj G Hok.
    destruct (Nat.eq_dec j i) as [->|Hne]; [congruence|].
    apply (IH _ _ R j b); [lia | exact G | exact Hok].
Qed.

Lemma extract_loop_overlap_sorted (self : LeanCodeParser)
    (keys : option (list str)) (minp maxp : Z) (fuel : nat) :
  Forall nonblank (cleaned_lines self) ->
  forall i blocks,
    extract_loop fuel self keys true minp maxp i = Ret blocks ->
    StronglySorted (fun b1 b2 => blk_start b1 < blk_start b2) blocks.
Proof.
  intros Hnb. induction fuel as [|fuel IH]; intros i blocks;
    cbn [extract_loop];
    destruct (length (cleaned_lines self) <=? i);
    try (intros [= <-]; constructor); try discriminate.
  cbn [negb].
  destruct (get_block_from_lid self i keys) as [[b|]| |] eqn:G; cbn [bind];
    try discriminate; [|apply IH].
  destruct (proof_lines_ok minp maxp b); [|apply IH].
  destruct (extract_loop fuel self keys true minp maxp (i + 1))
    as [blocks'| |] eqn:R; cbn [bind]; try discriminate.
  intros [= <-]. constructor; [exact (IH _ _ R)|].
  destruct (get_block_from_lid_some _ _ _ _ Hnb G) as (Hst & _).
  pose proof (extract_loop_kept self keys true minp maxp fuel Hnb _ _ R) as Hk.
  revert Hk. apply Forall_impl. intros b' (j & Hj & G' & _).
  destruct (get_block_from_lid_some _ _ _ _ Hnb G') as (Hst' & _). lia.
Qed.

(** X3. With overlap allowed the extractor returns, for every text,
    exactly the blocks that the scanner finds at some line index and that
    pass the filter on the number of proof lines, ordered by start index:
    no matching index is skipped. *)
Theorem overlapping_extraction_complete (code : str)
    (keys : option (list str)) (minp maxp : Z) :
  let p := new_parser code in
  exists blocks,
    extract_all_blocks p keys true minp maxp = Ret blocks
    /\ (forall b,
           In b blocks
           <-> exists i, get_block_from_lid p i keys = Ret (Some b)
                         /\ proof_lines_ok minp maxp b = true)
    /\ StronglySorted (fun b1 b2 => blk_start b1 < blk_start b2) blocks.
Proof.
  intros p. pose proof (cleaned_lines_nonblank code) as Hnb. fold p in Hnb.
  destruct (extract_loop_total p keys true minp maxp
              (length (cleaned_lines p) - 0) Hnb 0 (le_n _)) as [blocks E].
  exists blocks. split; [exact E|]. split.
  - intros b. split.
    + intros HIn.
      pose proof (extract_loop_kept p keys true minp maxp _ Hnb _ _ E) as Hk.
      destruct (proj1 (Forall_forall _ _) Hk b HIn) as (j & _ & G & Hok).
      exists j. auto.
    + intros (i & G & Hok).
      apply (extract_loop_overlap_complete p keys minp maxp _ _ _ E i b);
        [lia | exact G | exact Hok].
  - exact (extract_loop_overlap_sorted p keys minp maxp _ Hnb _ _ E).
Qed.

Lemma overlapping_extraction_complete_witness :
  let code := lit "theorem t : P := by" ++ [nl] ++ lit "  have a : P := by"
              ++ [nl] ++ lit "    have b : Q := c" ++ [nl] ++ lit "  exact a" in
  exists blocks,
    extract_all_blocks (new_parser code) (Some [lit "have"]) true 0 100
    = Ret blocks
    /\ map (fun b => (blk_start b, blk_end b)) blocks = [(1, 2); (2, 2)]
    /\ (forall b i,
           get_block_from_lid (new_parser code) i (Some [lit "have"])
           = Ret (Some b) ->
           proof_lines_ok 0 100 b = true -> In b blocks).
Proof.
  cbv zeta.
  destruct (overlapping_extraction_complete
              (lit "theorem t : P := by" ++ [nl] ++ lit "  have a : P := by"
               ++ [nl] ++ lit "    have b : Q := c" ++ [nl] ++ lit "  exact a")
              (Some [lit "have"]) 0 100) as (blocks & E & Hiff & _).
  exists blocks. split; [exact E|]. split.
  - vm_compute in E. injection E as <-. reflexivity.
  - intros b i G Hok. apply Hiff. exists i. auto.
Defined.

(** X4. Forbidding overlap only leaves blocks out: every block of the
    non-overlapping extraction is a block of the overlapping extraction
    of the same text with the same keys and bounds. *)
Theorem nonoverlapping_blocks_among_overlapping (code : str)
    (keys : option (list str)) (minp maxp : Z)
    (disjoint overlapping : list Block) :
  extract_all_blocks (new_parser code) keys false minp maxp = Ret disjoint ->
  extract_all_blocks (new_parser code) keys true minp maxp = Ret overlapping ->
  forall b, In b disjoint -> In b overlapping.
Proof.
  intros Ed Eo b HIn. pose proof (cleaned_lines_nonblank code) as Hnb.
  pose proof (extract_loop_kept _ keys false minp maxp _ Hnb _ _ Ed) as Hk.
  destruct (proj1 (Forall_forall _ _) Hk b HIn) as (j & _ & G & Hok).
  apply (extract_loop_overlap_complete _ keys minp maxp _ _ _ Eo j b);
    [lia | exact G | exact Hok].
Qed.

Lemma nonoverlapping_blocks_among_overlapping_witness :
  let code := lit "theorem t : P := by" ++ [nl] ++ lit "  have a : P := by"
              ++ [nl] ++ lit "    have b : Q := c" ++ [nl] ++ lit "  exact a" in
  exists disjoint overlapping,
    extract_all_blocks (new_parser code) (Some [lit "have"]) false 0 100
    = Ret disjoint
    /\ extract_all_blocks (new_parser code) (Some [lit "have"]) true 0 100
       = Ret overlapping
    /\ length disjoint = 1 /\ length overlapping = 2
    /\ (forall b, In b disjoint -> In b overlapping).
Proof.
  cbv zeta. eexists. eexists.
  split; [vm_compute; reflexivity|]. split; [vm_compute; reflexivity|].
  split; [reflexivity|]. split; [reflexivity|].
  apply (nonoverlapping_blocks_among_overlapping
           (lit "theorem t : P := by" ++ [nl] ++ lit "  have a : P := by"
            ++ [nl] ++ lit "    have b : Q := c" ++ [nl] ++ lit "  exact a")
           (Some [lit "have"]) 0 100); vm_compute; reflexivity.
Defined.

(** ** The shape of a normalized line *)

Lemma find_occurs (sub s : str) (i : nat) :
  Py.find sub s = Some i -> occurs sub s.
Proof.
  revert i; induction s as [|c s IH]; intros i; cbn [Py.find].
  - destruct (Py.startswith sub []) eqn:E; [|discriminate].
    intros _. apply startswith_app in E. destruct E as (t & E).
    exists [], t. exact E.
  - destruct (Py.startswith sub (c :: s)) eqn:E.
    + intros _. apply startswith_app in E. destruct E as (t & E).
      exists [], t. exact E.
    + destruct (Py.find sub s) as [j|]; [|discriminate].
      intros _. destruct (IH j eq_refl) as (a & b & ->).
      exists (c :: a), b. reflexivity.
Qed.

Lemma find_none_occurs (sub s : str) :
  Py.find sub s = None -> ~ occurs sub s.
Proof.
  induction s as [|c s IH]; cbn [Py.find].
  - destruct (Py.startswith sub []) eqn:E; [discriminate|].
    intros _ (a & b & H). destruct a; [|discriminate H].
    assert (Py.startswith sub [] = true)
      by (apply startswith_app; exists b; exact H). congruence.
  - destruct (Py.startswith sub (c :: s)) eqn:E; [discriminate|].
    destruct (Py.find sub s) as [j|]; [discriminate|].
    intros _ (a & b & H). destruct a as [|x a].
    + assert (Py.startswith sub (c :: s) = true)
        by (apply startswith_app; exists b; exact H). congruence.
    + injection H as _ H. apply (IH eq_refl). exists a, b. exact H.
Qed.

Lemma contains_occurs (sub s : str) :
  Py.contains sub s = true <-> occurs sub s.
Proof.
  unfold Py.contains. destruct (Py.find sub s) as [i|] eqn:F.
  - split; [intros _; exact (find_occurs _ _ _ F) | reflexivity].
  - split; [discriminate|]. intros H.
    exfalso. exact (find_none_occurs _ _ F H).
Qed.

Lemma not_occurs_app (sub a b : str) :
  ~ occurs sub (a ++ b) -> ~ occurs sub a /\ ~ occurs sub b.
Proof.
  intros H. split; intros (x & y & E); apply H; subst.
  - exists x, (y ++ b). rewrite <- !app_assoc. reflexivity.
  - exists (a ++ x), y. rewrite <- !app_assoc. reflexivity.
Qed.

(** The pattern ["--"] matches where the text starts with two dashes. *)
Lemma line_comment_match (s : str) :
  Re.match_rest Pat.line_comment s
  = if Py.startswith (lit "--") s then Some (skipn 2 s) else None.
Proof.
  unfold Re.match_rest, Pat.line_comment.
  destruct s as [|a [|b t]]; [reflexivity | |].
  - cbn. destruct (match a with 0%N => false | N.pos q => (45 =? q)%positive end);
      reflexivity.
  - cbn. destruct (match a with 0%N => false | N.pos q => (45 =? q)%positive end);
      [|reflexivity].
    destruct (match b with 0%N => false | N.pos q => (45 =? q)%positive end);
      reflexivity.
Qed.

Lemma split1_head_prefix (r : Re.regex) (s : str) :
  exists w, s = Re.split1_head r s ++ w.
Proof.
  induction s as [|c s (w & E)]; cbn [Re.split1_head].
  - destruct (Re.match_rest r []); exists []; reflexivity.
  - destruct (Re.match_rest r (c :: s)).
    + exists (c :: s). reflexivity.
    + exists w. cbn [app]. f_equal. exact E.
Qed.

(** What stands before a line comment holds no line comment. *)
Lemma split1_head_no_comment (s : str) :
  ~ occurs (lit "--") (Re.split1_head Pat.line_comment s).
Proof.
  induction s as [|c s IH]; cbn [Re.split1_head];
    rewrite line_comment_match.
  - cbn. intros (a & b & H). destruct a; discriminate H.
  - destruct (Py.startswith (lit "--") (c :: s)) eqn:E.
    + intros (a & b & H). destruct a; discriminate H.
    + intros (a & b & H). destruct a as [|x a].
      * cbn [app] in H. injection H as Hc H.
        destruct (split1_head_prefix Pat.line_comment s) as (w & Hs).
        rewrite H in Hs.
        assert (Py.startswith (lit "--") (c :: s) = true) as E'.
        { apply startswith_app. exists (b ++ w). rewrite Hs, Hc.
          reflexivity. }
        congruence.
      * injection H as _ H. apply IH. exists a, b. exact H.
Qed.

Lemma spaces_no_comment (n : nat) (s : str) :
  ~ occurs (lit "--") s -> ~ occurs (lit "--") (Py.spaces n ++ s).
Proof.
  intros Hs. induction n as [|n IH]; [exact Hs|].
  intros (a & b & H). destruct a as [|x a].
  - discriminate H.
  - injection H as _ H. apply IH. exists a, b. exact H.
Qed.

(** A text that ends with a non-whitespace character. *)
Lemma rstrip_ends (s : str) :
  Py.rstrip s <> [] ->
  exists t c, Py.rstrip s = t ++ [c] /\ Py.isspace c = false.
Proof.
  unfold Py.rstrip. intros H.
  destruct (Py.dropwhile Py.isspace (rev s)) as [|c t] eqn:E;
    [contradiction H; reflexivity|].
  exists (rev t), c. split; [reflexivity | exact (dropwhile_head _ _ _ _ E)].
Qed.

Lemma ends_rstrip (t : str) (c : char) :
  Py.isspace c = false -> Py.rstrip (t ++ [c]) = t ++ [c].
Proof.
  intros H. unfold Py.rstrip. rewrite rev_app_distr. cbn [rev app Py.dropwhile].
  rewrite H. cbn [rev]. rewrite rev_involutive. reflexivity.
Qed.

Lemma ends_suffix (a b t : str) (c : char) :
  a ++ b = t ++ [c] -> b <> [] -> exists t', b = t' ++ [c].
Proof.
  intros E Hb. destruct (exists_last Hb) as (b' & c' & ->).
  rewrite app_assoc in E. apply app_inj_tail in E. destruct E as [_ ->].
  exists b'. reflexivity.
Qed.

Lemma blank_spaces_app (n : nat) (s : str) :
  nonempty (Py.strip (Py.spaces n ++ s)) = true -> s <> [].
Proof.
  intros H ->. rewrite app_nil_r in H.
  assert (Py.strip (Py.spaces n) = []) as E.
  { apply strip_nil. clear H. induction n; [reflexivity | exact IHn]. }
  rewrite E in H. discriminate H.
Qed.

Lemma splitlines_no_break_upto (n : nat) :
  forall s : str,
    length s <= n ->
    Forall (fun line => forall c, In c line -> Py.islinebreak c = false)
           (Py.splitlines s).
Proof.
  induction n as [|n IH]; intros [|c t] Hlen; cbn [Py.splitlines];
    try constructor; cbn [length] in Hlen; try lia.
  destruct (Py.islinebreak c) eqn:Hc.
  - destruct t as [|d t']; [repeat constructor; intros ? []|].
    destruct ((c =? 13)%N && (d =? 10)%N).
    + constructor; [intros ? [] | apply IH; cbn [length] in Hlen; lia].
    + constructor; [intros ? [] | apply IH; lia].
  - pose proof (IH t (ltac:(lia))) as Ht.
    destruct (Py.splitlines t) as [|l ls].
    + repeat constructor. intros x [<-|[]]. exact Hc.
    + inversion Ht as [|? ? Hl Hls]; subst. constructor; [|exact Hls].
      intros x [<-|Hx]; [exact Hc | exact (Hl x Hx)].
Qed.

Lemma splitlines_no_break (s : str) :
  Forall (fun line => forall c, In c line -> Py.islinebreak c = false)
         (Py.splitlines s).
Proof. exact (splitlines_no_break_upto (length s) s (le_n _)). Qed.

Lemma in_spaces (n : nat) (c : char) : In c (Py.spaces n) -> c = ch " ".
Proof. intros H. exact (repeat_spec _ _ _ H). Qed.

Lemma clean_line_shape (l : str) :
  (forall c, In c l -> Py.islinebreak c = false) ->
  Forall (fun line =>
            Py.rstrip line = line
            /\ (forall c, In c line -> Py.islinebreak c = false)
            /\ ~ occurs (lit "--") line)
         (clean_line l).
Proof.
  intros Hl. unfold clean_line.
  set (x := Re.split1_head Pat.line_comment l).
  destruct (nonempty (Py.strip (Py.rstrip x))) eqn:E; cbn [negb];
    [|constructor].
  destruct (split1_head_prefix Pat.line_comment l) as (w1 & Hx). fold x in Hx.
  destruct (rstrip_prefix x) as (w2 & Hr).
  assert (forall c, In c (Py.rstrip x) -> Py.islinebreak c = false) as Hnb.
  { intros c Hc. apply Hl. rewrite Hx, Hr, !in_app_iff. auto. }
  assert (~ occurs (lit "--") (Py.rstrip x)) as Hno.
  { pose proof (split1_head_no_comment l) as H. fold x in H.
    rewrite Hr in H. exact (proj1 (not_occurs_app _ _ _ H)). }
  assert (Py.rstrip x <> []) as Hne.
  { intros H0. rewrite H0 in E. discriminate E. }
  destruct (rstrip_ends x Hne) as (t & c & Ht & Hc).
  assert (Py.rstrip (Py.rstrip x) = Py.rstrip x) as Hidem
      by (rewrite Ht; apply ends_rstrip; exact Hc).
  destruct (Py.startswith_any _ _); [|repeat constructor; auto].
  destruct (dropwhile_split Py.isspace (Py.rstrip x)) as (a & Ha & _).
  fold (Py.lstrip (Py.rstrip x)) in Ha.
  set (noind := Py.lstrip (Py.rstrip x)) in *.
  set (indent := length (Py.rstrip x) - length noind).
  constructor.
  - split; [|split].
    + change (lit ".") with [ch "."]. apply ends_rstrip. reflexivity.
    + intros d Hd. apply in_app_iff in Hd. destruct Hd as [Hd|[<-|[]]];
        [apply in_spaces in Hd; rewrite Hd|]; reflexivity.
    + apply spaces_no_comment. intros (p & q & H).
      destruct p as [|? [|? ?]]; discriminate H.
  - destruct (nonempty (Py.strip (Py.spaces (indent + 2) ++ skipn 2 noind)))
      eqn:R; [|constructor].
    constructor; [|constructor].
    pose proof (blank_spaces_app _ _ R) as Hsk.
    assert (Py.rstrip x = (a ++ firstn 2 noind) ++ skipn 2 noind) as Hsplit
        by (rewrite <- app_assoc, firstn_skipn; exact Ha).
    split; [|split].
    + rewrite Ht in Hsplit. symmetry in Hsplit.
      destruct (ends_suffix _ _ _ _ Hsplit Hsk) as (t' & Ht').
      rewrite Ht', app_assoc. apply ends_rstrip. exact Hc.
    + intros d Hd. apply in_app_iff in Hd. destruct Hd as [Hd|Hd].
      * apply in_spaces in Hd. rewrite Hd. reflexivity.
      * apply Hnb. rewrite Hsplit. apply in_app_iff. auto.
    + apply spaces_no_comment. rewrite Hsplit in Hno.
      exact (proj2 (not_occurs_app _ _ _ Hno)).
Qed.

Lemma cleaned_lines_shape (code : str) :
  Forall (fun line =>
            Py.rstrip line = line
            /\ (forall c, In c line -> Py.islinebreak c = false)
            /\ ~ occurs (lit "--") line)
         (cleaned_lines (new_parser code)).
Proof.
  cbn [cleaned_lines new_parser]. unfold strip_comments_and_blank_lines.
  pose proof (splitlines_no_break
                (formatting (Re.sub Pat.block_comment [] code))) as Hs.
  induction Hs as [|l ls Hl Hls IH]; cbn [flat_map]; [constructor|].
  apply Forall_app. split; [apply clean_line_shape; exact Hl | exact IH].
Qed.

(** X5. Every normalized line of every text holds a token, ends without
    whitespace, holds no line-break character and no line-comment marker
    [--]. *)
Theorem normalized_lines_shape (code : str) :
  Forall (fun line =>
            nonblank line
            /\ Py.rstrip line = line
            /\ (forall c, In c line -> Py.islinebreak c = false)
            /\ Py.contains (lit "--") line = false)
         (cleaned_lines (new_parser code)).
Proof.
  pose proof (cleaned_lines_nonblank code) as Hnb.
  pose proof (cleaned_lines_shape code) as Hshape.
  apply Forall_forall. intros line HIn.
  pose proof (proj1 (Forall_forall _ _) Hnb line HIn) as H1.
  destruct (proj1 (Forall_forall _ _) Hshape line HIn) as (H2 & H3 & H4).
  split; [exact H1|]. split; [exact H2|]. split; [exact H3|].
  destruct (Py.contains (lit "--") line) eqn:C; [|reflexivity].
  exfalso. apply H4. apply contains_occurs. exact C.
Qed.

(** ** Joining and splitting lines *)

Lemma splitlines_line (x : str) :
  x <> [] -> (forall c, In c x -> Py.islinebreak c = false) ->
  Py.splitlines x = [x].
Proof.
  induction x as [|c t IH]; intros Hne Hnb; [contradiction Hne; reflexivity|].
  cbn [Py.splitlines]. rewrite (Hnb c (or_introl eq_refl)).
  destruct t as [|d t']; [reflexivity|].
  rewrite IH; [reflexivity | discriminate |].
  intros e He. apply Hnb. right. exact He.
Qed.

Lemma splitlines_cons (x rest : str) :
  (forall c, In c x -> Py.islinebreak c = false) ->
  Py.splitlines (x ++ nl :: rest) = x :: Py.splitlines rest.
Proof.
  induction x as [|c t IH]; intros Hnb.
  - cbn [app Py.splitlines]. change (Py.islinebreak nl) with true.
    cbv beta iota. destruct rest as [|d t']; reflexivity.
  - cbn [app Py.splitlines]. rewrite (Hnb c (or_introl eq_refl)).
    rewrite IH; [reflexivity|]. intros e He. apply Hnb. right. exact He.
Qed.

Lemma splitlines_join (ls : list str) :
  Forall (fun l => l <> [] /\ forall c, In c l -> Py.islinebreak c = false) ls ->
  Py.splitlines (Py.join [nl] ls) = ls.
Proof.
  induction 1 as [|x ls [Hne Hnb] Hls IH]; [reflexivity|].
  destruct ls as [|y ls'].
  - cbn [Py.join]. apply splitlines_line; assumption.
  - change (Py.join [nl] (x :: y :: ls'))
      with (x ++ nl :: Py.join [nl] (y :: ls')).
    rewrite splitlines_cons by exact Hnb. f_equal. exact IH.
Qed.

(** X6. Joining the normalized lines with newlines and splitting the
    text again gives the normalized lines back: the normalized text of a
    parser has exactly its normalized lines as lines. *)
Theorem cleaned_code_splitlines (code : str) :
  Py.splitlines (cleaned_code (new_parser code))
  = cleaned_lines (new_parser code).
Proof.
  change (cleaned_code (new_parser code))
    with (Py.join [nl] (cleaned_lines (new_parser code))).
  apply splitlines_join.
  pose proof (cleaned_lines_nonblank code) as Hnb.
  pose proof (cleaned_lines_shape code) as Hshape.
  apply Forall_forall. intros line HIn.
  pose proof (proj1 (Forall_forall _ _) Hnb line HIn) as H1.
  destruct (proj1 (Forall_forall _ _) Hshape line HIn) as (_ & H3 & _).
  split; [|exact H3]. intros ->. apply H1. reflexivity.
Qed.

(** ** Whitespace normalization of statements *)

Lemma split_words (s : str) : Forall word (Py.split s).
Proof.
  induction s as [|c t IH]; cbn [Py.split]; [constructor|].
  destruct (Py.isspace c) eqn:Hc; [exact IH|].
  assert (word [c]) as Hw.
  { split; [discriminate|]. cbn. rewrite Hc. reflexivity. }
  destruct t as [|d t']; [constructor; [exact Hw | constructor]|].
  destruct (Py.isspace d); [constructor; [exact Hw | exact IH]|].
  destruct (Py.split (d :: t')) as [|w ws];
    [constructor; [exact Hw | constructor]|].
  inversion IH as [|? ? [Hne Hall] Hws]; subst.
  constructor; [|exact Hws]. split; [discriminate|].
  cbn [forallb]. rewrite Hc, Hall. reflexivity.
Qed.

Lemma split_word_app (w rest : str) :
  word w -> Py.split (w ++ ch " " :: rest) = w :: Py.split rest.
Proof.
  intros [Hne Hall]. induction w as [|c w IH]; [contradiction Hne; reflexivity|].
  cbn [forallb] in Hall. apply andb_true_iff in Hall. destruct Hall as [Hc Hall].
  apply negb_true_iff in Hc.
  cbn [app Py.split]. rewrite Hc.
  destruct w as [|d w'].
  - cbn [app]. change (Py.isspace (ch " ")) with true. cbv beta iota.
    reflexivity.
  - cbn [app]. pose proof Hall as Hd. cbn [forallb] in Hd.
    apply andb_true_iff in Hd. destruct Hd as [Hd _].
    apply negb_true_iff in Hd. rewrite Hd.
    change (Py.split (d :: w' ++ ch " " :: rest))
      with (Py.split ((d :: w') ++ ch " " :: rest)).
    rewrite (IH (ltac:(discriminate)) Hall). reflexivity.
Qed.

Lemma split_word (w : str) : word w -> Py.split w = [w].
Proof.
  intros [Hne Hall]. induction w as [|c w IH]; [contradiction Hne; reflexivity|].
  cbn [forallb] in Hall. apply andb_true_iff in Hall. destruct Hall as [Hc Hall].
  apply negb_true_iff in Hc.
  cbn [Py.split]. rewrite Hc.
  destruct w as [|d w']; [reflexivity|].
  pose proof Hall as Hd. cbn [forallb] in Hd.
  apply andb_true_iff in Hd. destruct Hd as [Hd _].
  apply negb_true_iff in Hd. rewrite Hd.
  rewrite (IH (ltac:(discriminate)) Hall). reflexivity.
Qed.

(** Splitting what was joined with single spaces gives the words back. *)
Lemma split_join_words (ws : list str) :
  Forall word ws -> Py.split (Py.join (lit " ") ws) = ws.
Proof.
  induction 1 as [|w ws Hw Hws IH]; [reflexivity|].
  destruct ws as [|w2 ws'].
  - cbn [Py.join]. apply split_word. exact Hw.
  - change (Py.join (lit " ") (w :: w2 :: ws'))
      with (w ++ ch " " :: Py.join (lit " ") (w2 :: ws')).
    rewrite (split_word_app _ _ Hw), IH. reflexivity.
Qed.

Lemma split_normalize (s : str) :
  Py.split (normalize_statement s) = Py.split s.
Proof. apply split_join_words, split_words. Qed.

Lemma normalize_eq_iff (a b : str) :
  normalize_statement a = normalize_statement b <-> Py.split a = Py.split b.
Proof.
  split.
  - intros H. rewrite <- (split_normalize a), <- (split_normalize b), H.
    reflexivity.
  - intros H. unfold normalize_statement. rewrite H. reflexivity.
Qed.

(** X7. Normalizing a statement keeps its tokens and changes nothing when
    applied again; two statements have the same normal form exactly when
    they have the same tokens; the normal form is empty exactly when the
    statement holds no token. *)
Theorem normalize_statement_tokens :
  (forall s, Py.split (normalize_statement s) = Py.split s)
  /\ (forall s,
         normalize_statement (normalize_statement s) = normalize_statement s)
  /\ (forall a b,
         normalize_statement a = normalize_statement b
         <-> Py.split a = Py.split b)
  /\ (forall s, normalize_statement s = [] <-> Py.split s = []).
Proof.
  split; [exact split_normalize|]. split; [|split].
  - intros s. apply normalize_eq_iff. apply split_normalize.
  - exact normalize_eq_iff.
  - intros s. split.
    + intros H. rewrite <- (split_normalize s), H. reflexivity.
    + intros H. unfold normalize_statement. rewrite H. reflexivity.
Qed.

Lemma normalize_statement_tokens_witness :
  normalize_statement (lit "theorem  foo :" ++ [nl] ++ lit "   P")
  = normalize_statement (lit "theorem foo : P")
  /\ normalize_statement (lit "theorem  foo :" ++ [nl] ++ lit "   P")
     = lit "theorem foo : P".
Proof.
  split; [|vm_compute; reflexivity].
  apply (proj1 (proj2 (proj2 normalize_statement_tokens))).
  vm_compute. reflexivity.
Defined.

(** ** Statement snapshots and their comparison *)

(** X8. For one file and one name, the tracker reports a change exactly
    when the statement before and the statement after differ in their
    tokens; differences in whitespace alone are not reported.  A reported
    change is [added] when the statement before is empty (the name was
    absent or had an empty statement), [removed] when only the statement
    after is empty, and [modified] otherwise. *)
Theorem statement_change_reported (initial current : dict) (name : str) :
  let orig := dict_get initial name [] in
  let curr := dict_get current name [] in
  (Py.split orig = Py.split curr -> check_name initial current name = [])
  /\ (Py.split orig <> Py.split curr ->
      check_name initial current name
      = [{| change_name := name;
            change_original := orig;
            change_current := curr;
            change_type := if negb (nonempty orig) then added
                           else if negb (nonempty curr) then removed
                           else modified |}]).
Proof.
  cbv zeta. unfold check_name.
  destruct (Py.str_eqb (normalize_statement (dict_get initial name []))
              (normalize_statement (dict_get current name []))) eqn:E;
    cbn [negb].
  - apply str_eqb_eq, normalize_eq_iff in E. split; [reflexivity|].
    intros H. contradiction.
  - split; [|reflexivity]. intros H. apply normalize_eq_iff in H.
    apply str_eqb_eq in H. congruence.
Qed.

Lemma statement_change_reported_witness :
  check_name [(lit "foo", lit "theorem foo :  P")]
    [(lit "foo", lit "theorem foo : P")] (lit "foo") = []
  /\ check_name [] [(lit "foo", lit "theorem foo : P")] (lit "foo")
     = [{| change_name := lit "foo";
           change_original := [];
           change_current := lit "theorem foo : P";
           change_type := added |}].
Proof.
  split.
  - apply (proj1 (statement_change_reported
                    [(lit "foo", lit "theorem foo :  P")]
                    [(lit "foo", lit "theorem foo : P")] (lit "foo"))).
    vm_compute. reflexivity.
  - apply (proj2 (statement_change_reported
                    [] [(lit "foo", lit "theorem foo : P")] (lit "foo"))).
    vm_compute. intros H. discriminate H.
Defined.

Lemma str_eqb_refl (a : str) : Py.str_eqb a a = true.
Proof. apply str_eqb_eq. reflexivity. Qed.

Lemma str_eqb_neq (a b : str) : a <> b -> Py.str_eqb a b = false.
Proof.
  intros H. destruct (Py.str_eqb a b) eqn:E; [|reflexivity].
  apply str_eqb_eq in E. contradiction.
Qed.

Lemma dict_get_set (d : dict) (k v k' default : str) :
  dict_get (dict_set d k v) k' default
  = if Py.str_eqb k k' then v else dict_get d k' default.
Proof.
  induction d as [|[k0 v0] d IH]; cbn [dict_set dict_get].
  - reflexivity.
  - destruct (Py.str_eqb k0 k) eqn:E0; cbn [dict_get].
    + apply str_eqb_eq in E0. subst k0.
      destruct (Py.str_eqb k k'); reflexivity.
    + destruct (Py.str_eqb k0 k') eqn:E1; [|exact IH].
      apply str_eqb_eq in E1. subst k0.
      destruct (Py.str_eqb k k') eqn:E2; [|reflexivity].
      apply str_eqb_eq in E2. subst k.
      rewrite str_eqb_refl in E0. discriminate E0.
Qed.

Lemma find_snoc {A} (f : A -> bool) (l : list A) (x : A) :
  find f (l ++ [x])
  = match find f l with
    | Some y => Some y
    | None => if f x then Some x else None
    end.
Proof.
  induction l as [|y l IH]; cbn [app find]; [reflexivity|].
  destruct (f y); [reflexivity | exact IH].
Qed.

(** After the loop a name maps to the statement of the last block that
    carries it. *)
Lemma statements_loop_get (blocks : list Block) :
  forall (d : dict) (n default : str),
    dict_get (statements_loop blocks d) n default
    = match find (named n) (rev blocks) with
      | Some b => statement (blk_info b)
      | None => dict_get d n default
      end.
Proof.
  induction blocks as [|block rest IH]; intros d n default;
    cbn [statements_loop rev]; [reflexivity|].
  rewrite find_snoc. unfold named at 2.
  destruct (name (blk_info block)) as [m|].
  - destruct (nonempty m); cbn [andb]; rewrite IH;
      destruct (find (named n) (rev rest)); try reflexivity.
    rewrite dict_get_set. destruct (Py.str_eqb m n); reflexivity.
  - rewrite IH. destruct (find (named n) (rev rest)); reflexivity.
Qed.

(** X9. The snapshot of a file never comes from the exception path: for
    every text the parser returns, and a name maps to the statement of
    the last theorem or lemma block of the non-overlapping extraction
    that carries it; a name carried by no block is absent.  A file that
    does not exist gives the empty snapshot. *)
Theorem snapshot_holds_last_statement (code : str) :
  extract_statements_from_file None = []
  /\ exists blocks,
       extract_all_blocks (new_parser code)
         (Some [lit "theorem"; lit "lemma"]) false 0 10000 = Ret blocks
       /\ extract_statements_from_file (Some code) = statements_loop blocks []
       /\ forall n default,
            dict_get (extract_statements_from_file (Some code)) n default
            = match find (named n) (rev blocks) with
              | Some b => statement (blk_info b)
              | None => default
              end.
Proof.
  split; [reflexivity|].
  pose proof (cleaned_lines_nonblank code) as Hnb.
  destruct (extract_loop_total (new_parser code)
              (Some [lit "theorem"; lit "lemma"]) false 0 10000
              (length (cleaned_lines (new_parser code)) - 0) Hnb 0 (le_n _))
    as [blocks E].
  exists blocks. split; [exact E|].
  assert (extract_statements_from_file (Some code) = statements_loop blocks [])
    as Hs.
  { unfold extract_statements_from_file, extract_all_blocks, extract_from.
    rewrite E. reflexivity. }
  split; [exact Hs|]. intros n default. rewrite Hs, statements_loop_get.
  reflexivity.
Qed.

(** ** Header extraction *)

Lemma headers_loop_spec (ls : list str) :
  Forall nonblank ls ->
  forall h : Headers,
  exists h',
    headers_loop ls h = Ret h'
    /\ import_lines h'
       = import_lines h ++ filter (first_token_is (lit "import")) ls
    /\ import_list h'
       = import_list h
         ++ flat_map header_args (filter (first_token_is (lit "import")) ls)
    /\ open_lines h'
       = open_lines h ++ filter (first_token_is (lit "open")) ls
    /\ open_list h'
       = open_list h
         ++ flat_map header_args (filter (first_token_is (lit "open")) ls)
    /\ set_option_lines h'
       = set_option_lines h ++ filter (first_token_is (lit "set_option")) ls
    /\ set_option_list h'
       = set_option_list h ++ filter (first_token_is (lit "set_option")) ls.
Proof.
  induction 1 as [|line ls Hline Hls IH]; intros h; cbn [headers_loop].
  - exists h. rewrite !app_nil_r. repeat split; reflexivity.
  - unfold nonblank in Hline.
    destruct (Py.split line) as [|key args] eqn:T; [contradiction|].
    assert (forall k, first_token_is k line = Py.str_eqb key k) as Hft
        by (intros k; unfold first_token_is; rewrite T; reflexivity).
    assert (header_args line = args) as Hargs
        by (unfold header_args; rewrite T; reflexivity).
    cbn [filter]. rewrite !Hft.
    destruct (Py.str_eqb key (lit "import")) eqn:E1.
    { apply str_eqb_eq in E1. subst key.
      change (Py.str_eqb (lit "import") (lit "open")) with false.
      change (Py.str_eqb (lit "import") (lit "set_option")) with false.
      cbv beta iota.
      destruct (IH {| import_list := import_list h ++ args;
                      open_list := open_list h;
                      set_option_list := set_option_list h;
                      import_lines := import_lines h ++ [line];
                      open_lines := open_lines h;
                      set_option_lines := set_option_lines h |})
        as (h' & E & H1 & H2 & H3 & H4 & H5 & H6).
      cbn [import_list open_list set_option_list import_lines open_lines
             set_option_lines] in *.
      exists h'. split; [exact E|].
      cbn [flat_map]. rewrite Hargs.
      rewrite H1, H2, <- !app_assoc. repeat split; assumption. }
    destruct (Py.str_eqb key (lit "open")) eqn:E2.
    { apply str_eqb_eq in E2. subst key.
      change (Py.str_eqb (lit "open") (lit "set_option")) with false.
      cbv beta iota.
      destruct (IH {| import_list := import_list h;
                      open_list := open_list h ++ args;
                      set_option_list := set_option_list h;
                      import_lines := import_lines h;
                      open_lines := open_lines h ++ [line];
                      set_option_lines := set_option_lines h |})
        as (h' & E & H1 & H2 & H3 & H4 & H5 & H6).
      cbn [import_list open_list set_option_list import_lines open_lines
             set_option_lines] in *.
      exists h'. split; [exact E|].
      cbn [flat_map]. rewrite Hargs.
      rewrite H3, H4, <- !app_assoc. repeat split; assumption. }
    destruct (Py.str_eqb key (lit "set_option")) eqn:E3.
    { destruct (IH {| import_list := import_list h;
                      open_list := open_list h;
                      set_option_list := set_option_list h ++ [line];
                      import_lines := import_lines h;
                      open_lines := open_lines h;
                      set_option_lines := set_option_lines h ++ [line] |})
        as (h' & E & H1 & H2 & H3 & H4 & H5 & H6).
      cbn [import_list open_list set_option_list import_lines open_lines
             set_option_lines] in *.
      exists h'. split; [exact E|].
      rewrite H5, H6, <- !app_assoc. repeat split; assumption. }
    apply IH.
Qed.

Lemma filter_remove_first (x : str) (l : list str) :
  filter (fun t => negb (Py.str_eqb t x)) (remove_first x l)
  = filter (fun t => negb (Py.str_eqb t x)) l.
Proof.
  induction l as [|y l IH]; cbn [remove_first filter]; [reflexivity|].
  destruct (Py.str_eqb y x) eqn:E; cbn [negb filter]; [reflexivity|].
  rewrite E. cbn [negb]. f_equal. exact IH.
Qed.

(** X10. Header extraction returns for every text.  The import, open and
    set_option lines it records are the normalized lines whose first
    token is that key, in order; the import list is the tokens that
    follow [import] on those lines; the set_option list is the
    set_option lines themselves; and of the tokens that follow [open],
    every one other than [scoped] is in the open list, in order. *)
Theorem headers_of_text (code : str) :
  exists h,
    extract_headers (new_parser code) = Ret h
    /\ import_lines h
       = filter (first_token_is (lit "import")) (cleaned_lines (new_parser code))
    /\ import_list h = flat_map header_args (import_lines h)
    /\ open_lines h
       = filter (first_token_is (lit "open")) (cleaned_lines (new_parser code))
    /\ filter (fun t => negb (Py.str_eqb t (lit "scoped"))) (open_list h)
       = filter (fun t => negb (Py.str_eqb t (lit "scoped")))
           (flat_map header_args (open_lines h))
    /\ set_option_lines h
       = filter (first_token_is (lit "set_option"))
           (cleaned_lines (new_parser code))
    /\ set_option_list h = set_option_lines h.
Proof.
  pose proof (cleaned_lines_nonblank code) as Hnb.
  destruct (headers_loop_spec _ Hnb
              {| import_list := []; open_list := []; set_option_list := [];
                 import_lines := []; open_lines := [];
                 set_option_lines := [] |})
    as (h' & E & H1 & H2 & H3 & H4 & H5 & H6).
  cbn [import_list open_list set_option_list import_lines open_lines
         set_option_lines app] in *.
  unfold extract_headers. rewrite E. cbn [bind].
  eexists. split; [reflexivity|].
  cbn [import_list open_list set_option_list import_lines open_lines
         set_option_lines].
  split; [exact H1|]. split; [rewrite H2, H1; reflexivity|].
  split; [exact H3|]. split; [|split; [exact H5 | rewrite H6, H5; reflexivity]].
  rewrite H3, <- H4.
  destruct (Py.mem (lit "scoped") (open_list h')); [|reflexivity].
  apply filter_remove_first.
Qed.

(** ** The name pattern without the matcher *)

Lemma star_notin_loop (cs : str) :
  forall (n : nat) (s : str),
    length s <= n ->
    (fix loop (n : nat) (s : str) {struct n} : option str :=
       match n with
       | O => Some s
       | S n' =>
           match Re.rmatch (Re.NotIn cs) s
                   (fun s' => if length s' <? length s then loop n' s'
                              else None) with
           | Some x => Some x
           | None => Some s
           end
       end) n s
    = Some (Py.dropwhile (fun c => negb (Py.char_in c cs)) s).
Proof.
  induction n as [|n IH]; intros s Hlen.
  - destruct s; [reflexivity | cbn [length] in Hlen; lia].
  - destruct s as [|d t]; [reflexivity|].
    cbn [length] in Hlen. specialize (IH t (ltac:(lia))).
    cbn [Re.rmatch Py.dropwhile] in IH |- *.
    destruct (Py.char_in d cs); cbn [negb]; [reflexivity|].
    assert ((length t <? length (d :: t)) = true) as Hlt
        by (apply Nat.ltb_lt; cbn [length]; lia).
    rewrite Hlt, IH. reflexivity.
Qed.

Lemma star_notin (cs s : str) :
  Re.rmatch (Re.Star (Re.NotIn cs)) s (fun r => Some r)
  = Some (Py.dropwhile (fun c => negb (Py.char_in c cs)) s).
Proof. exact (star_notin_loop cs (length s) s (le_n _)). Qed.

Lemma firstn_takewhile (f : char -> bool) (s : str) :
  length (Py.dropwhile f s) <= length s
  /\ firstn (length s - length (Py.dropwhile f s)) s = takewhile f s.
Proof.
  induction s as [|c t [Hle IH]]; [split; reflexivity|].
  cbn [Py.dropwhile takewhile]. destruct (f c).
  - cbn [length]. split; [lia|].
    replace (S (length t) - length (Py.dropwhile f t))
      with (S (length t - length (Py.dropwhile f t))) by lia.
    cbn [firstn]. f_equal. exact IH.
  - split; [lia|]. rewrite Nat.sub_diag. reflexivity.
Qed.

Lemma rmatch_notin_cons (cs : str) (d : char) (t : str)
    (k : str -> option str) :
  Re.rmatch (Re.NotIn cs) (d :: t) k
  = if Py.char_in d cs then None else k t.
Proof. reflexivity. Qed.

(** The name pattern matches the longest leading run of characters that
    end no name, provided the run is not empty. *)
Lemma name_run_match (rest : str) :
  Re.match_group Pat.name_run rest
  = match takewhile (fun c => negb (delimiter c)) rest with
    | [] => None
    | n => Some n
    end.
Proof.
  unfold Re.match_group, Re.match_rest, Pat.name_run, Re.Plus.
  change (Re.rmatch (Re.Seq (Re.NotIn (lit " :{[("))
                       (Re.Star (Re.NotIn (lit " :{[("))))
            rest (fun r => Some r))
    with (Re.rmatch (Re.NotIn (lit " :{[(")) rest
            (fun s' => Re.rmatch (Re.Star (Re.NotIn (lit " :{[("))) s'
                         (fun r => Some r))).
  destruct rest as [|d t]; [reflexivity|].
  rewrite rmatch_notin_cons. cbn [takewhile]. unfold delimiter.
  destruct (Py.char_in d (lit " :{[(")); cbn [negb]; [reflexivity|].
  rewrite star_notin.
  destruct (firstn_takewhile
              (fun c => negb (Py.char_in c (lit " :{[("))) t) as [Hle E].
  cbn [length].
  replace (S (length t)
           - length (Py.dropwhile
                       (fun c => negb (Py.char_in c (lit " :{[("))) t))
    with (S (length t
             - length (Py.dropwhile
                         (fun c => negb (Py.char_in c (lit " :{[("))) t)))
    by lia.
  cbn [firstn]. rewrite E. reflexivity.
Qed.

Lemma takewhile_all (f : char -> bool) (s : str) (c : char) :
  In c (takewhile f s) -> f c = true.
Proof.
  induction s as [|d t IH]; cbn [takewhile]; [intros []|].
  destruct (f d) eqn:E; [|intros []].
  intros [<-|H]; [exact E | exact (IH H)].
Qed.

(** X11. Name extraction needs no pattern matcher: after the key and the
    anonymous forms are dealt with, the name is the longest leading run
    of characters other than space, colon and the three opening brackets,
    and the result is [None] exactly when that run is empty.  A returned
    name other than the default is therefore non-empty and holds none of
    these characters. *)
Theorem name_is_leading_run (code key default : str) :
  extract_name_from_code code key default
  = (if negb (Py.startswith (key ++ lit " ") (Py.strip code)) then None
     else
       let rest := Py.strip (skipn (length key) (Py.strip code)) in
       if Py.startswith_any [lit ":"; lit "("; lit ":="] rest then Some default
       else match takewhile (fun c => negb (delimiter c)) rest with
            | [] => None
            | n => Some n
            end)
  /\ (forall n,
         extract_name_from_code code key default = Some n ->
         n = default
         \/ (n <> [] /\ forall c, In c n -> delimiter c = false)).
Proof.
  assert (extract_name_from_code code key default
          = (if negb (Py.startswith (key ++ lit " ") (Py.strip code)) then None
             else
               let rest := Py.strip (skipn (length key) (Py.strip code)) in
               if Py.startswith_any [lit ":"; lit "("; lit ":="] rest
               then Some default
               else match takewhile (fun c => negb (delimiter c)) rest with
                    | [] => None
                    | n => Some n
                    end)) as Heq.
  { unfold extract_name_from_code.
    destruct (negb (Py.startswith (key ++ lit " ") (Py.strip code)));
      [reflexivity|].
    cbv zeta. destruct (Py.startswith_any _ _); [reflexivity|].
    rewrite name_run_match.
    destruct (takewhile _ _); reflexivity. }
  split; [exact Heq|]. intros n. rewrite Heq.
  destruct (negb _); [discriminate|]. cbv zeta.
  destruct (Py.startswith_any _ _); [intros [= <-]; left; reflexivity|].
  destruct (takewhile (fun c => negb (delimiter c)) _) as [|c0 t0] eqn:T;
    [discriminate|].
  intros [= <-]. right. split; [discriminate|].
  intros c Hc. rewrite <- T in Hc. apply takewhile_all in Hc.
  apply negb_true_iff in Hc. exact Hc.
Qed.

Lemma name_is_leading_run_witness :
  extract_name_from_code (lit "  have h2 (x : T) : P") (lit "have") (lit "this")
  = Some (lit "h2")
  /\ (lit "h2" = lit "this"
      \/ (lit "h2" <> [] /\ forall c, In c (lit "h2") -> delimiter c = false)).
Proof.
  split; [vm_compute; reflexivity|].
  apply (proj2 (name_is_leading_run (lit "  have h2 (x : T) : P") (lit "have")
                  (lit "this"))).
  vm_compute. reflexivity.
Defined.

(** ** Block names and get_theorem_name *)

Lemma split_first_prefix (s : str) :
  forall w ws,
    Py.split s = w :: ws ->
    (exists c t, s = c :: t /\ Py.isspace c = false) ->
    exists t, s = w ++ t.
Proof.
  induction s as [|c t IH]; intros w ws Hs (c0 & t0 & E & Hc0);
    [discriminate E|].
  injection E as <- <-. cbn [Py.split] in Hs. rewrite Hc0 in Hs.
  destruct t as [|d t']; [injection Hs as <- _; exists []; reflexivity|].
  destruct (Py.isspace d) eqn:Hd;
    [injection Hs as <- _; exists (d :: t'); reflexivity|].
  destruct (Py.split (d :: t')) as [|w' ws'] eqn:T;
    [injection Hs as <- _; exists (d :: t'); reflexivity|].
  injection Hs as <- _.
  destruct (IH w' ws' eq_refl) as (t'' & E); [exists d, t'; auto|].
  exists t''. cbn [app]. f_equal. exact E.
Qed.

Lemma lstrip_fixed_head (c : char) (t : str) :
  Py.lstrip (c :: t) = c :: t -> Py.isspace c = false.
Proof.
  unfold Py.lstrip. cbn [Py.dropwhile].
  destruct (Py.isspace c); [|reflexivity]. intros H.
  pose proof (proj1 (firstn_takewhile Py.isspace t)) as Hle.
  rewrite H in Hle. cbn [length] in Hle. lia.
Qed.

Lemma parse_block_name (line0 : str) (rest : list str) (key : str)
    (info : BlockInfo) :
  parse_block (line0 :: rest) key = Ret info ->
  Py.mem key DOT_KEYS = false ->
  name info = extract_name_from_code line0 key (lit "this").
Proof.
  unfold parse_block. intros H Hd. rewrite Hd in H.
  destruct (extract_statement_and_proof_from_code _) as [[st pr]|];
    cbv beta iota zeta in H; injection H as <-; reflexivity.
Qed.

(** X12. For a theorem or lemma block whose first line is not indented,
    [get_theorem_name] applied to that line passes its assertion and
    returns the name the block records. *)
Theorem theorem_name_of_block (code : str) (start : nat) (b : Block)
    (line0 : str) (rest : list str) :
  get_block_from_lid (new_parser code) start
    (Some [lit "theorem"; lit "lemma"]) = Ret (Some b) ->
  blk_lines b = line0 :: rest ->
  Py.lstrip line0 = line0 ->
  get_theorem_name line0 (lit "this") = Ret (name (blk_info b)).
Proof.
  intros G Hlines Hind. pose proof (cleaned_lines_nonblank code) as Hnb.
  destruct (get_block_from_lid_inv _ _ _ _ G)
    as (start_line & key & ts & Hnth & Hsplit & Hmem & _ & _ & _ & Hl & _
        & Hparse).
  pose proof (block_loop_shape key (get_indent start_line) _
                (Forall_skipn _ (start + 1) _ Hnb) [start_line] (start + 1))
    as (Hshape & _).
  rewrite <- Hl, Hlines in Hshape. cbn [app] in Hshape.
  injection Hshape as -> _.
  rewrite Hlines in Hparse.
  assert (exists t, start_line = key ++ t) as (t & Ht).
  { apply (split_first_prefix _ _ _ Hsplit).
    destruct start_line as [|c s]; [discriminate Hsplit|].
    exists c, s. split; [reflexivity | exact (lstrip_fixed_head _ _ Hind)]. }
  apply mem_In in Hmem. cbn [default_keys] in Hmem.
  destruct Hmem as [<-|[<-|[]]].
  - rewrite (parse_block_name _ _ _ _ Hparse eq_refl).
    unfold get_theorem_name, Py.startswith_any. cbn [existsb].
    assert (Py.startswith (lit "theorem") start_line = true) as H1
        by (apply startswith_app; exists t; exact Ht).
    rewrite H1. reflexivity.
  - rewrite (parse_block_name _ _ _ _ Hparse eq_refl).
    unfold get_theorem_name, Py.startswith_any. cbn [existsb].
    assert (Py.startswith (lit "lemma") start_line = true) as H1
        by (apply startswith_app; exists t; exact Ht).
    assert (Py.startswith (lit "theorem") start_line = false) as H2
        by (rewrite Ht; reflexivity).
    rewrite H1, H2. reflexivity.
Qed.

Lemma theorem_name_of_block_witness :
  get_theorem_name (lit "lemma t1 (x : T) : P := by") (lit "this")
  = Ret (Some (lit "t1")).
Proof.
  refine (eq_trans
            (theorem_name_of_block
               (lit "lemma t1 (x : T) : P := by" ++ [nl] ++ lit "  simp") 0 _
               (lit "lemma t1 (x : T) : P := by") [lit "  simp"] _ _ _) _).
  - vm_compute. reflexivity.
  - reflexivity.
  - reflexivity.
  - reflexivity.
Defined.

(** ** The stub generator's edge cases *)

Lemma extract_loop_no_key (self : LeanCodeParser) (keys : option (list str))
    (allow_overlap : bool) (minp maxp : Z) :
  Forall nonblank (cleaned_lines self) ->
  (forall line key,
      In line (cleaned_lines self) -> first_token line = Some key ->
      ~ In key (default_keys keys)) ->
  forall fuel i,
    length (cleaned_lines self) - i <= fuel ->
    extract_loop fuel self keys allow_overlap minp maxp i = Ret [].
Proof.
  intros Hnb Hkeys. induction fuel as [|fuel IH]; intros i Hfuel;
    cbn [extract_loop];
    destruct (Nat.leb_spec (length (cleaned_lines self)) i) as [Hlen|Hlen];
    try reflexivity; try lia.
  assert (get_block_from_lid self i keys = Ret None) as G.
  { unfold get_block_from_lid.
    destruct (nth_error (cleaned_lines self) i) as [line|] eqn:E;
      [|reflexivity].
    pose proof (nth_error_In _ _ E) as HIn.
    pose proof (proj1 (Forall_forall _ _) Hnb line HIn) as Hline.
    unfold nonblank in Hline.
    destruct (Py.split line) as [|key ts] eqn:T; [contradiction|].
    destruct (Py.mem key (default_keys keys)) eqn:M; [|reflexivity].
    exfalso. apply (Hkeys line key HIn).
    - unfold first_token. rewrite T. reflexivity.
    - apply mem_In. exact M. }
  rewrite G. cbn [bind]. apply IH. lia.
Qed.

(** X13. The stub generator returns for every text, key list, cap and
    bounds.  With a cap of zero, and also when no normalized line has one
    of the keys as its first token, what it returns is the normalized
    text, unchanged. *)
Theorem stub_generator_edge_cases (code : str) (keys : list str)
    (max_sorry_cnt minp maxp : Z) :
  (exists out,
      create_proof_with_sorries code keys max_sorry_cnt minp maxp = Ret out)
  /\ (max_sorry_cnt = 0%Z ->
      create_proof_with_sorries code keys max_sorry_cnt minp maxp
      = Ret (cleaned_code (new_parser code)))
  /\ ((forall line key,
          In line (cleaned_lines (new_parser code)) ->
          first_token line = Some key -> ~ In key keys) ->
      create_proof_with_sorries code keys max_sorry_cnt minp maxp
      = Ret (cleaned_code (new_parser code))).
Proof.
  pose proof (cleaned_lines_nonblank code) as Hnb.
  destruct (extract_loop_total (new_parser code) (Some keys) false minp maxp
              (length (cleaned_lines (new_parser code)) - 0) Hnb 0 (le_n _))
    as [blocks E].
  unfold create_proof_with_sorries, extract_all_blocks, extract_from.
  split; [|split].
  - rewrite E. cbn [bind]. eauto.
  - intros ->. rewrite E. cbn [bind]. reflexivity.
  - intros Hkeys.
    rewrite (extract_loop_no_key (new_parser code) (Some keys) false minp maxp
               Hnb Hkeys _ 0 (le_n _)).
    cbn [bind]. unfold Py.sorted_desc, Py.slice_to. cbn [fold_left].
    destruct (0 <=? max_sorry_cnt)%Z; rewrite firstn_nil; reflexivity.
Qed.

Lemma stub_generator_edge_cases_witness :
  let code := lit "theorem t : P := by" ++ [nl] ++ lit "  have a : P := by simp"
              ++ [nl] ++ lit "  exact a" in
  create_proof_with_sorries code default_sorry_keys 0 0 100
  = Ret (cleaned_code (new_parser code))
  /\ create_proof_with_sorries code [lit "replace"] 5 0 100
     = Ret (cleaned_code (new_parser code)).
Proof.
  cbv zeta. split.
  - apply (proj1 (proj2 (stub_generator_edge_cases _ _ 0 0 100))).
    reflexivity.
  - apply (proj2 (proj2 (stub_generator_edge_cases _ _ 5 0 100))).
    intros line key HIn Hkey [<-|[]].
    vm_compute in HIn.
    destruct HIn as [<-|[<-|[<-|[]]]]; vm_compute in Hkey; discriminate Hkey.
Defined.

(** ** remove_imports and add_newlines_before_keys *)

Lemma remove_imports_loop_ok (prefixes : list str) (lines : list str) :
  (forall line, In line lines -> Py.startswith (lit "import") line = true ->
                package_name line <> None) ->
  remove_imports_loop lines prefixes
  = Ret (filter (kept_import prefixes) lines).
Proof.
  induction lines as [|line rest IH]; intros Hok; [reflexivity|].
  cbn [remove_imports_loop filter]. unfold kept_import at 1.
  rewrite IH by (intros l Hl; apply Hok; right; exact Hl).
  destruct (Py.startswith (lit "import") line) eqn:E; cbn [negb orb bind];
    [|reflexivity].
  pose proof (Hok line (or_introl eq_refl) E) as Hpk.
  unfold package_name in *.
  destruct (Py.split line) as [|t0 [|pk ts]]; cbn [nth_error] in *;
    try (contradiction Hpk; reflexivity).
  destruct (existsb _ prefixes); reflexivity.
Qed.

Lemma remove_imports_loop_raises (prefixes : list str) (lines : list str) :
  (exists line, In line lines /\ Py.startswith (lit "import") line = true
                /\ package_name line = None) ->
  remove_imports_loop lines prefixes = Raise IndexError.
Proof.
  induction lines as [|line rest IH]; intros (bad & HIn & Himp & Hpk);
    [contradiction HIn|].
  cbn [remove_imports_loop].
  destruct HIn as [<-|HIn].
  - rewrite Himp. cbn [negb]. unfold package_name in Hpk.
    destruct (Py.split line) as [|t0 [|pk ts]]; cbn [nth_error] in Hpk;
      [reflexivity | reflexivity | discriminate Hpk].
  - rewrite (IH (ex_intro _ bad (conj HIn (conj Himp Hpk)))).
    destruct (negb (Py.startswith (lit "import") line)); [reflexivity|].
    destruct (Py.split line) as [|t0 [|pk ts]]; try reflexivity.
    destruct (existsb _ prefixes); reflexivity.
Qed.

(** X14. [remove_imports] raises [IndexError] when some line of the text
    starts with ["import"] and has no second token.  For every other text
    it returns the lines it lets through, joined by newlines: the lines
    that do not start with ["import"], and of those that do, the ones
    whose second token starts with none of the prefixes. *)
Theorem remove_imports_behaviour (code : str) (prefixes : list str) :
  ((exists line,
       In line (Py.splitlines code)
       /\ Py.startswith (lit "import") line = true
       /\ package_name line = None) ->
   remove_imports code prefixes = Raise IndexError)
  /\ ((forall line,
          In line (Py.splitlines code) ->
          Py.startswith (lit "import") line = true ->
          package_name line <> None) ->
      remove_imports code prefixes
      = Ret (Py.join [nl]
               (filter (kept_import prefixes) (Py.splitlines code)))).
Proof.
  unfold remove_imports. split; intros H.
  - rewrite (remove_imports_loop_raises prefixes _ H). reflexivity.
  - rewrite (remove_imports_loop_ok prefixes _ H). reflexivity.
Qed.

Lemma remove_imports_behaviour_witness :
  remove_imports (lit "import Mathlib" ++ [nl] ++ lit "import") [lit "Aesop"]
  = Raise IndexError
  /\ remove_imports
       (lit "import Mathlib.Tactic" ++ [nl] ++ lit "import Aesop" ++ [nl]
        ++ lit "theorem t : P := h") [lit "Mathlib"]
     = Ret (lit "import Aesop" ++ [nl] ++ lit "theorem t : P := h").
Proof.
  split.
  - apply (proj1 (remove_imports_behaviour _ _)).
    exists (lit "import"). split; [right; left; reflexivity|].
    split; reflexivity.
  - rewrite (proj2 (remove_imports_behaviour
                      (lit "import Mathlib.Tactic" ++ [nl] ++ lit "import Aesop"
                       ++ [nl] ++ lit "theorem t : P := h") [lit "Mathlib"])).
    + vm_compute. reflexivity.
    + intros line HIn _. vm_compute in HIn.
      destruct HIn as [<-|[<-|[<-|[]]]]; vm_compute; discriminate.
Defined.

Lemma add_newlines_loop_nonempty (keys : list str) (lines : list str) :
  filter nonempty (add_newlines_loop lines keys) = filter nonempty lines.
Proof.
  induction lines as [|line rest IH]; [reflexivity|].
  cbn [add_newlines_loop]. destruct (existsb _ keys); cbn [filter nonempty];
    rewrite IH; reflexivity.
Qed.

Lemma add_newlines_loop_length (keys : list str) (lines : list str) :
  length (add_newlines_loop lines keys)
  = length lines + length (filter (starts_with_key keys) lines).
Proof.
  induction lines as [|line rest IH]; [reflexivity|].
  cbn [add_newlines_loop filter]. unfold starts_with_key at 1.
  destruct (existsb _ keys); cbn [length]; rewrite IH; lia.
Qed.

Lemma add_newlines_loop_preceded (keys : list str) (lines : list str) :
  forall a x b,
    add_newlines_loop lines keys = a ++ x :: b ->
    nonempty x = true -> starts_with_key keys x = true ->
    exists a', a = a' ++ [[]].
Proof.
  induction lines as [|line rest IH]; intros a x b E Hx Hk.
  - destruct a; discriminate E.
  - cbn [add_newlines_loop] in E.
    destruct (existsb (fun key => Py.startswith key line) keys) eqn:K.
    + destruct a as [|a0 [|a1 a2]].
      * injection E as <- _. discriminate Hx.
      * injection E as <- _ _. exists []. reflexivity.
      * injection E as <- <- E. destruct (IH a2 x b E Hx Hk) as (a' & ->).
        exists ([] :: line :: a'). reflexivity.
    + destruct a as [|a0 a1].
      * injection E as <- _. unfold starts_with_key in Hk. congruence.
      * injection E as <- E. destruct (IH a1 x b E Hx Hk) as (a' & ->).
        exists (line :: a'). reflexivity.
Qed.

(** X15. [add_newlines_before_keys] only inserts empty lines: leaving the
    empty lines out of its output lines gives the non-empty lines of the
    text, one empty line is inserted for every line that starts with a
    key, and every non-empty output line that starts with a key comes
    right after an empty line. *)
Theorem add_newlines_only_inserts (code : str) (keys : list str) :
  let out := add_newlines_loop (Py.splitlines code) keys in
  add_newlines_before_keys code keys = Py.join [nl] out
  /\ filter nonempty out = filter nonempty (Py.splitlines code)
  /\ length out
     = length (Py.splitlines code)
       + length (filter (starts_with_key keys) (Py.splitlines code))
  /\ (forall a x b,
         out = a ++ x :: b -> nonempty x = true ->
         starts_with_key keys x = true ->
         exists a', a = a' ++ [[]]).
Proof.
  cbv zeta. split; [reflexivity|].
  split; [apply add_newlines_loop_nonempty|].
  split; [apply add_newlines_loop_length|].
  apply add_newlines_loop_preceded.
Qed.

Lemma add_newlines_only_inserts_witness :
  add_newlines_before_keys
    (lit "import A" ++ [nl] ++ lit "theorem t : P := h" ++ [nl]
     ++ lit "lemma l : Q := k") [lit "theorem"; lit "lemma"]
  = lit "import A" ++ [nl] ++ [nl] ++ lit "theorem t : P := h" ++ [nl] ++ [nl]
    ++ lit "lemma l : Q := k"
  /\ exists a', [lit "import A"; []] = a' ++ [[]].
Proof.
  split; [vm_compute; reflexivity|].
  apply (proj2 (proj2 (proj2 (add_newlines_only_inserts
                                (lit "import A" ++ [nl]
                                 ++ lit "theorem t : P := h" ++ [nl]
                                 ++ lit "lemma l : Q := k")
                                [lit "theorem"; lit "lemma"])))
           [lit "import A"; []] (lit "theorem t : P := h")
           [[]; lit "lemma l : Q := k"]).
  - vm_compute. reflexivity.
  - reflexivity.
  - reflexivity.
Defined.

(** ** get_all_theorem_names *)

(** X16. [get_all_theorem_names] returns for every text.  Its names are
    those of the theorem and lemma blocks found at any line index, nested
    ones included, whose proof has at most 10000 lines; a block that has
    no name contributes [None]. *)
Theorem all_theorem_names_complete (code : str) :
  exists names,
    get_all_theorem_names code = Ret names
    /\ forall n,
         In n names
         <-> exists i b,
               get_block_from_lid (new_parser code) i
                 (Some [lit "theorem"; lit "lemma"]) = Ret (Some b)
               /\ proof_lines_ok 0 10000 b = true
               /\ name (blk_info b) = n.
Proof.
  pose proof (cleaned_lines_nonblank code) as Hnb.
  destruct (extract_loop_total (new_parser code)
              (Some [lit "theorem"; lit "lemma"]) true 0 10000
              (length (cleaned_lines (new_parser code)) - 0) Hnb 0 (le_n _))
    as [blocks E].
  exists (map (fun block => name (blk_info block)) blocks). split.
  - unfold get_all_theorem_names, extract_all_blocks, extract_from.
    rewrite E. reflexivity.
  - intros n. rewrite in_map_iff. split.
    + intros (b & Hn & HIn).
      pose proof (extract_loop_kept _ _ true 0 10000 _ Hnb _ _ E) as Hk.
      destruct (proj1 (Forall_forall _ _) Hk b HIn) as (j & _ & G & Hok).
      exists j, b. auto.
    + intros (i & b & G & Hok & Hn). exists b. split; [exact Hn|].
      apply (extract_loop_overlap_complete _ _ 0 10000 _ _ _ E i b);
        [lia | exact G | exact Hok].
Qed.

Lemma all_theorem_names_complete_witness :
  get_all_theorem_names
    (lit "theorem a : P := by" ++ [nl] ++ lit "  lemma b : Q := h" ++ [nl]
     ++ lit "theorem {x : Nat} : R := h")
  = Ret [Some (lit "a"); Some (lit "b"); None].
Proof.
  destruct (all_theorem_names_complete
              (lit "theorem a : P := by" ++ [nl] ++ lit "  lemma b : Q := h"
               ++ [nl] ++ lit "theorem {x : Nat} : R := h")) as (names & E & _).
  rewrite E. vm_compute in E. injection E as <-. reflexivity.
Defined.

(** ** Inner indentation, trimmed parts and stubs of stubs *)

Lemma parse_block_fields (line0 : str) (rest : list str) (key : str)
    (info : BlockInfo) :
  parse_block (line0 :: rest) key = Ret info ->
  proof_style info
  = (if Py.startswith (lit "by") (proof info) then tactic
     else if Py.mem key DOT_KEYS then dot_block
     else if nonempty (proof info) then term else unknown)
  /\ inner_indent info
     = (let cleaned :=
          Re.sub_start Pat.blank_lines []
            (Re.sub_start Pat.first_line [] (proof info)) in
        let n := length cleaned - length (Py.lstrip cleaned) in
        if n <=? 0 then get_indent line0 + 2 else n).
Proof.
  unfold parse_block. intros H.
  destruct (Py.mem key DOT_KEYS).
  - cbv beta iota zeta in H. injection H as <-. split; reflexivity.
  - destruct (extract_statement_and_proof_from_code _) as [[st pr]|];
      cbv beta iota zeta in H; injection H as <-; split; reflexivity.
Qed.

Lemma first_line_removed (s : str) :
  (forall c, In c s -> c <> nl) ->
  Re.sub_start Pat.first_line [] s = [].
Proof.
  intros H. unfold Re.sub_start, Re.match_rest, Pat.first_line.
  rewrite star_notin. cbn [app]. apply dropwhile_nil.
  apply forallb_forall. intros c Hc. cbn [Py.char_in existsb].
  rewrite orb_false_r. apply negb_true_iff, N.eqb_neq. exact (H c Hc).
Qed.

(** X17. The inner indentation the classifier records is never zero, and
    for a proof text without a newline it is the indentation of the
    block's first line plus two. *)
Theorem inner_indent_default (lines : list str) (key : str)
    (info : BlockInfo) :
  parse_block lines key = Ret info ->
  1 <= inner_indent info
  /\ (forall line0 rest,
         lines = line0 :: rest ->
         (forall c, In c (proof info) -> c <> nl) ->
         inner_indent info = get_indent line0 + 2).
Proof.
  intros H. destruct lines as [|l0 ls]; [discriminate H|].
  destruct (parse_block_fields _ _ _ _ H) as [_ Hi]. cbv zeta in Hi.
  split.
  - rewrite Hi.
    destruct (Nat.leb_spec
                (length (Re.sub_start Pat.blank_lines []
                           (Re.sub_start Pat.first_line [] (proof info)))
                 - length (Py.lstrip
                             (Re.sub_start Pat.blank_lines []
                                (Re.sub_start Pat.first_line []
                                   (proof info))))) 0); lia.
  - intros line0 rest [= <- <-] Hnl.
    rewrite Hi, (first_line_removed _ Hnl). reflexivity.
Qed.

Lemma inner_indent_default_witness :
  exists info,
    parse_block [lit "  have h : P := by simp"] (lit "have") = Ret info
    /\ 1 <= inner_indent info
    /\ inner_indent info = get_indent (lit "  have h : P := by simp") + 2.
Proof.
  eexists. split; [vm_compute; reflexivity|].
  destruct (inner_indent_default [lit "  have h : P := by simp"] (lit "have")
              _ eq_refl) as [H1 H2].
  split; [exact H1|].
  apply (H2 (lit "  have h : P := by simp") [] eq_refl).
  intros c Hc E. subst c. vm_compute in Hc.
  repeat (destruct Hc as [Hc|Hc]; [discriminate Hc|]). exact Hc.
Defined.

Lemma find_exact (old s : str) (i : nat) :
  Py.find old s = Some i ->
  s = firstn i s ++ old ++ skipn (i + length old) s.
Proof.
  revert i; induction s as [|c s IH]; intros i; cbn [Py.find].
  - destruct (Py.startswith old []) eqn:E; [|discriminate].
    intros [= <-]. apply startswith_app in E. destruct E as (t & E).
    destruct old; [reflexivity | discriminate E].
  - destruct (Py.startswith old (c :: s)) eqn:E.
    + intros [= <-]. apply startswith_app in E. destruct E as (t & E).
      cbn [firstn app Nat.add]. rewrite E at 2.
      rewrite <- (Nat.add_0_r (length old)), skipn_length_app.
      exact E.
    + destruct (Py.find old s) as [j|]; [|discriminate].
      intros [= <-]. cbn [firstn app Nat.add skipn]. f_equal.
      exact (IH j eq_refl).
Qed.

Lemma replace1_same (old s : str) : Py.replace1 old old s = s.
Proof.
  unfold Py.replace1. destruct (Py.find old s) as [i|] eqn:F; [|reflexivity].
  symmetry. exact (find_exact _ _ _ F).
Qed.

(** X18. Stubbing leaves an already stubbed block alone: for a scanned
    block whose proof text is [sorry] or [by sorry],
    [gen_one_sorry_of_block] returns the text it was given. *)
Theorem stub_of_stub_unchanged (code : str) (start : nat)
    (keys : option (list str)) (b : Block) (original_cleaned : str) :
  get_block_from_lid (new_parser code) start keys = Ret (Some b) ->
  proof (blk_info b) = lit "sorry" \/ proof (blk_info b) = lit "by sorry" ->
  gen_one_sorry_of_block original_cleaned b = original_cleaned.
Proof.
  intros G Hp. pose proof (cleaned_lines_nonblank code) as Hnb.
  destruct (get_block_from_lid_inv _ _ _ _ G)
    as (start_line & key & ts & _ & _ & _ & _ & _ & _ & Hl & _ & Hparse).
  pose proof (block_loop_shape key (get_indent start_line) _
                (Forall_skipn _ (start + 1) _ Hnb) [start_line] (start + 1))
    as (Hshape & _).
  rewrite <- Hl in Hshape. cbn [app] in Hshape. rewrite Hshape in Hparse.
  destruct (parse_block_fields _ _ _ _ Hparse) as [Hstyle _].
  unfold gen_one_sorry_of_block.
  destruct Hp as [Hp|Hp]; rewrite Hp in *.
  - change (Py.startswith (lit "by") (lit "sorry")) with false in Hstyle.
    assert (match proof_style (blk_info b) with
            | tactic => lit "by sorry"
            | _ => lit "sorry"
            end = lit "sorry") as ->.
    { rewrite Hstyle. destruct (Py.mem key DOT_KEYS); reflexivity. }
    rewrite !replace1_same. reflexivity.
  - change (Py.startswith (lit "by") (lit "by sorry")) with true in Hstyle.
    rewrite Hstyle, !replace1_same. reflexivity.
Qed.

Lemma stub_of_stub_unchanged_witness :
  exists b,
    get_block_from_lid (new_parser (lit "have h : P := by sorry")) 0
      (Some [lit "have"]) = Ret (Some b)
    /\ gen_one_sorry_of_block (lit "have h : P := by sorry") b
       = lit "have h : P := by sorry".
Proof.
  eexists. split; [vm_compute; reflexivity|].
  apply (stub_of_stub_unchanged (lit "have h : P := by sorry") 0
           (Some [lit "have"])).
  - vm_compute. reflexivity.
  - right. reflexivity.
Defined.

Lemma strip_strip (s : str) : Py.strip (Py.strip s) = Py.strip s.
Proof.
  destruct (Py.strip s) as [|h x'] eqn:E; [reflexivity|].
  rewrite <- E. unfold Py.strip in E |- *.
  assert (Py.rstrip (Py.lstrip s) <> []) as Hne by (rewrite E; discriminate).
  destruct (rstrip_ends _ Hne) as (t & c & Ht & Hc).
  destruct (rstrip_prefix (Py.lstrip s)) as (w & Hw).
  assert (Py.isspace h = false) as Hh.
  { rewrite E in Hw. cbn [app] in Hw. unfold Py.lstrip in Hw.
    exact (dropwhile_head _ _ _ _ Hw). }
  assert (Py.lstrip (Py.rstrip (Py.lstrip s)) = Py.rstrip (Py.lstrip s)) as Hl.
  { rewrite E. unfold Py.lstrip at 1. cbn [Py.dropwhile]. rewrite Hh.
    reflexivity. }
  rewrite Hl, Ht. apply ends_rstrip. exact Hc.
Qed.

(** X19. Whatever the splitter returns is trimmed: neither the statement
    nor the proof starts or ends with whitespace. *)
Theorem splitter_parts_trimmed (code statement proof : str) :
  extract_statement_and_proof_from_code code = Some (statement, proof) ->
  Py.strip statement = statement /\ Py.strip proof = proof.
Proof.
  unfold extract_statement_and_proof_from_code.
  destruct (negb (Py.contains (lit ":=") code)); [discriminate|].
  destruct (split_scan code 0 0 0 0) as [i|].
  - intros [= <- <-]. split; apply strip_strip.
  - intros [= <- <-]. split; [apply strip_strip|].
    destruct (length (Py.split1 (lit ":=") code) =? 2);
      [apply strip_strip | reflexivity].
Qed.

Lemma splitter_parts_trimmed_witness :
  Py.strip (lit "have h : P") = lit "have h : P"
  /\ Py.strip (lit "by simp") = lit "by simp".
Proof.
  apply (splitter_parts_trimmed (lit "  have h : P   :=   by simp  ")).
  vm_compute. reflexivity.
Defined.

(** ** The code outside the declarations *)

Lemma StronglySorted_suffix {A} (R : A -> A -> Prop) (a b : list A) :
  StronglySorted R (a ++ b) -> StronglySorted R b.
Proof.
  induction a as [|x a IH]; [auto|].
  cbn [app]. intros H. inversion H; subst. auto.
Qed.

Lemma StronglySorted_before {A} (R : A -> A -> Prop) (a : list A) (x : A)
    (l : list A) :
  StronglySorted R (a ++ x :: l) -> Forall (fun y => R y x) a.
Proof.
  induction a as [|y a IH]; [constructor|].
  cbn [app]. intros H. inversion H as [|? ? Hs Hall]; subst.
  constructor; [|exact (IH Hs)].
  apply (proj1 (Forall_forall _ _) Hall). apply in_app_iff. right. left.
  reflexivity.
Qed.

Lemma insert_pair_last (x : nat * nat) (l : list (nat * nat)) :
  Forall (fun y => pair_leb y x = true) l -> insert_pair x l = l ++ [x].
Proof.
  induction 1 as [|y l Hy Hl IH]; [reflexivity|].
  cbn [insert_pair app]. rewrite Hy, IH. reflexivity.
Qed.

(** Sorting a sorted list of ranges changes nothing. *)
Lemma sorted_pairs_sorted (l : list (nat * nat)) :
  StronglySorted (fun a b => pair_leb a b = true) l -> sorted_pairs l = l.
Proof.
  unfold sorted_pairs.
  assert (forall acc,
             StronglySorted (fun a b => pair_leb a b = true) (acc ++ l) ->
             fold_left (fun acc x => insert_pair x acc) l acc = acc ++ l)
    as H.
  { induction l as [|x l IH]; intros acc Hs; cbn [fold_left].
    - rewrite app_nil_r. reflexivity.
    - rewrite (insert_pair_last x acc (StronglySorted_before _ _ _ _ Hs)).
      rewrite IH; rewrite <- app_assoc; [reflexivity | exact Hs]. }
  intros Hs. exact (H [] Hs).
Qed.

Lemma skip_ranges_split (lid : nat) (ranges : list (nat * nat)) :
  exists dropped,
    ranges = dropped ++ skip_ranges lid ranges
    /\ Forall (fun r => snd r < lid) dropped
    /\ match skip_ranges lid ranges with
       | r :: _ => lid <= snd r
       | [] => True
       end.
Proof.
  induction ranges as [|[s e] ranges (dropped & E & Hd & Hh)];
    cbn [skip_ranges].
  - exists []. repeat split; constructor.
  - destruct (Nat.ltb_spec e lid) as [Hlt|Hge].
    + exists ((s, e) :: dropped). cbn [app]. split; [f_equal; exact E|].
      split; [constructor; [exact Hlt | exact Hd] | exact Hh].
    + exists []. repeat split; [constructor | exact Hge].
Qed.

Lemma in_some_range_dropped (dropped rest : list (nat * nat)) (lid j : nat) :
  Forall (fun r => snd r < lid) dropped -> lid <= j ->
  in_some_range (dropped ++ rest) j = in_some_range rest j.
Proof.
  intros Hd Hj. unfold in_some_range. rewrite existsb_app.
  replace (existsb (fun r => (fst r <=? j) && (j <=? snd r)) dropped)
    with false; [reflexivity|].
  symmetry. apply not_true_is_false. intros H.
  apply existsb_exists in H. destruct H as (r & Hr & Hc).
  pose proof (proj1 (Forall_forall _ _) Hd r Hr) as Hlt. cbv beta in Hlt.
  apply andb_true_iff in Hc. destruct Hc as [_ Hc].
  apply Nat.leb_le in Hc. lia.
Qed.

Lemma in_some_range_head (s e : nat) (rest : list (nat * nat)) (lid : nat) :
  StronglySorted (fun r1 r2 => snd r1 < fst r2) ((s, e) :: rest) ->
  lid <= e ->
  in_some_range ((s, e) :: rest) lid = (s <=? lid) && (lid <=? e).
Proof.
  intros Hs He. unfold in_some_range. cbn [existsb fst snd].
  replace (existsb (fun r => (fst r <=? lid) && (lid <=? snd r)) rest)
    with false; [apply orb_false_r|].
  symmetry. apply not_true_is_false. intros H.
  apply existsb_exists in H. destruct H as (r & Hr & Hc).
  inversion Hs as [|? ? _ Hall]; subst.
  pose proof (proj1 (Forall_forall _ _) Hall r Hr) as Hlt. cbn [snd] in Hlt.
  apply andb_true_iff in Hc. destruct Hc as [Hc _].
  apply Nat.leb_le in Hc. lia.
Qed.

(** The selection keeps the lines whose index lies in no range. *)
Lemma select_loop_spec (ls : list str) :
  forall (lid : nat) (ranges : list (nat * nat)),
    StronglySorted (fun r1 r2 => snd r1 < fst r2) ranges ->
    select_loop ls lid ranges
    = map snd
        (filter (fun il => negb (in_some_range ranges (fst il)))
                (combine (seq lid (length ls)) ls)).
Proof.
  induction ls as [|line rest IH]; intros lid ranges Hs; [reflexivity|].
  cbn [select_loop length seq combine filter fst].
  destruct (skip_ranges_split lid ranges) as (dropped & E & Hd & Hh).
  assert (StronglySorted (fun r1 r2 => snd r1 < fst r2)
            (skip_ranges lid ranges)) as Hs'
      by (rewrite E in Hs; exact (StronglySorted_suffix _ _ _ Hs)).
  assert (in_some_range ranges lid
          = match skip_ranges lid ranges with
            | (block_start, block_end) :: _ =>
                (block_start <=? lid) && (lid <=? block_end)
            | [] => false
            end) as Hhere.
  { rewrite E at 1. rewrite (in_some_range_dropped _ _ lid lid Hd (le_n _)).
    destruct (skip_ranges lid ranges) as [|[s e] tl]; [reflexivity|].
    apply in_some_range_head; [exact Hs' | exact Hh]. }
  rewrite <- Hhere.
  assert (select_loop rest (lid + 1) (skip_ranges lid ranges)
          = map snd
              (filter (fun il => negb (in_some_range ranges (fst il)))
                      (combine (seq (S lid) (length rest)) rest))) as Hrest.
  { rewrite (IH (lid + 1) _ Hs'), Nat.add_1_r. f_equal.
    apply filter_ext_in. intros [j l] HIn. cbn [fst].
    apply in_combine_l in HIn. apply in_seq in HIn.
    rewrite E at 2.
    rewrite (in_some_range_dropped _ _ lid j Hd (ltac:(lia))). reflexivity. }
  rewrite Hrest.
  destruct (in_some_range ranges lid); reflexivity.
Qed.

Lemma in_some_range_blocks (blocks : list Block) (lid : nat) :
  in_some_range (map (fun b => (blk_start b, blk_end b)) blocks) lid
  = in_some_block blocks lid.
Proof.
  unfold in_some_range, in_some_block.
  induction blocks as [|b bs IH]; [reflexivity|].
  cbn [map existsb fst snd]. rewrite IH. reflexivity.
Qed.

Lemma block_ranges_sorted (blocks : list Block) :
  StronglySorted (fun b1 b2 => blk_end b1 < blk_start b2) blocks ->
  Forall (fun b => blk_start b <= blk_end b) blocks ->
  StronglySorted (fun r1 r2 => snd r1 < fst r2)
    (map (fun b => (blk_start b, blk_end b)) blocks)
  /\ StronglySorted (fun a b => pair_leb a b = true)
       (map (fun b => (blk_start b, blk_end b)) blocks).
Proof.
  induction 1 as [|b bs Hs IH Hall]; intros Hspan; cbn [map];
    [split; constructor|].
  inversion Hspan as [|? ? Hb Hbs]; subst.
  destruct (IH Hbs) as [IH1 IH2].
  split; (constructor; [assumption|]); apply Forall_map;
    revert Hall; apply Forall_impl; intros b' Hlt; cbn [fst snd].
  - exact Hlt.
  - unfold pair_leb. cbn [fst snd].
    rewrite (proj2 (Nat.ltb_lt _ _) (ltac:(lia) : blk_start b < blk_start b')).
    reflexivity.
Qed.

Lemma select_loop_no_range (ls : list str) (lid : nat) :
  select_loop ls lid [] = ls.
Proof.
  revert lid; induction ls as [|line rest IH]; intros lid; [reflexivity|].
  cbn [select_loop skip_ranges negb]. rewrite IH. reflexivity.
Qed.

(** X20. [extract_other] returns for every text, and what it returns is
    the trimmed newline-join of the normalized lines that lie in no
    theorem or lemma block of the non-overlapping extraction and that do
    not, once trimmed, start with [import], [open] or [set_option]. *)
Theorem other_code_is_outside_blocks (code : str) :
  exists blocks out,
    extract_all_blocks (new_parser code) (Some [lit "theorem"; lit "lemma"])
      false 0 10000 = Ret blocks
    /\ extract_other (new_parser code) None None = Ret out
    /\ out
       = Py.strip
           (Py.join [nl]
              (filter (fun line => negb (header_prefixed line))
                      (lines_outside blocks
                         (cleaned_lines (new_parser code))))).
Proof.
  pose proof (cleaned_lines_nonblank code) as Hnb.
  destruct (extract_loop_total (new_parser code)
              (Some [lit "theorem"; lit "lemma"]) false 0 10000
              (length (cleaned_lines (new_parser code)) - 0) Hnb 0 (le_n _))
    as [blocks E].
  destruct (extract_loop_sorted _ _ 0 10000 _ Hnb _ _ E) as [Hs _].
  assert (Forall (fun b => blk_start b <= blk_end b) blocks) as Hspan.
  { pose proof (extract_loop_origin _ _ _ _ _ _ _ _ E) as Ho.
    revert Ho. apply Forall_impl. intros b (j & G).
    destruct (get_block_from_lid_some _ _ _ _ Hnb G) as (Hst & Hle & _).
    lia. }
  destruct (block_ranges_sorted blocks Hs Hspan) as [Hr1 Hr2].
  exists blocks. eexists. split; [exact E|].
  unfold extract_other, extract_all_blocks, extract_from.
  rewrite E. cbn [bind]. split; [reflexivity|].
  f_equal. f_equal. unfold header_prefixed.
  assert (lines_outside blocks (cleaned_lines (new_parser code))
          = select_loop (cleaned_lines (new_parser code)) 0
              (map (fun b => (blk_start b, blk_end b)) blocks)) as Hsel.
  { rewrite (select_loop_spec _ 0 _ Hr1). unfold lines_outside. f_equal.
    apply filter_ext. intros il. rewrite in_some_range_blocks. reflexivity. }
  rewrite Hsel.
  destruct blocks as [|b0 bs].
  - cbn [map]. rewrite select_loop_no_range. reflexivity.
  - rewrite (sorted_pairs_sorted _ Hr2). reflexivity.
Qed.

(** ** The composer *)

Lemma snippet_parts_ret (code : str) :
  exists headers other,
    snippet_parts code = Ret (headers, snippet_blocks code, other).
Proof.
  pose proof (cleaned_lines_nonblank code) as Hnb.
  destruct (headers_loop_spec _ Hnb
              {| import_list := []; open_list := []; set_option_list := [];
                 import_lines := []; open_lines := [];
                 set_option_lines := [] |}) as (h' & Eh & _).
  destruct (extract_loop_total (new_parser code)
              (Some [lit "theorem"; lit "lemma"]) false 0 10000
              (length (cleaned_lines (new_parser code)) - 0) Hnb 0 (le_n _))
    as [blocks E].
  unfold snippet_parts, snippet_blocks, extract_headers, extract_other,
    extract_all_blocks, extract_from.
  rewrite Eh, E. cbn [bind]. eauto.
Qed.

Lemma lemmas_loop_ret (lemmas : list str) :
  forall (sets : Sets) (codes : list str),
  exists sets',
    lemmas_loop lemmas sets codes
    = Ret (sets', codes ++ flat_map snippet_lemma_codes lemmas).
Proof.
  induction lemmas as [|lemma_raw rest IH]; intros sets codes;
    cbn [lemmas_loop flat_map].
  - exists sets. rewrite app_nil_r. reflexivity.
  - destruct (snippet_parts_ret lemma_raw) as (headers & other & E).
    rewrite E. cbn [bind].
    destruct (IH (add_snippet sets headers other)
                (codes ++ snippet_lemma_codes lemma_raw)) as (sets' & E').
    exists sets'. unfold snippet_lemma_codes in E' |- *.
    rewrite E', <- app_assoc. reflexivity.
Qed.

(** X21. The composer returns for every main statement and every list of
    lemma snippets.  The lemma codes it returns are, snippet by snippet
    and block by block in order, the texts of the theorem and lemma
    blocks of the snippets with the first ["theorem "] replaced by
    ["lemma "]; they do not depend on the main statement. *)
Theorem composer_returns (original_statement : str) (lemmas : list str) :
  (forall code,
      extract_all_blocks (new_parser code) (Some [lit "theorem"; lit "lemma"])
        false 0 10000 = Ret (snippet_blocks code))
  /\ exists final_code,
       create_statement_with_lemmas original_statement lemmas
       = Ret (final_code, flat_map snippet_lemma_codes lemmas).
Proof.
  split.
  - intros code. pose proof (cleaned_lines_nonblank code) as Hnb.
    destruct (extract_loop_total (new_parser code)
                (Some [lit "theorem"; lit "lemma"]) false 0 10000
                (length (cleaned_lines (new_parser code)) - 0) Hnb 0 (le_n _))
      as [blocks E].
    unfold snippet_blocks, extract_all_blocks, extract_from.
    rewrite E. reflexivity.
  - unfold create_statement_with_lemmas.
    destruct (snippet_parts_ret original_statement) as (headers & other & E).
    rewrite E. cbn [bind].
    destruct (lemmas_loop_ret lemmas
                (add_snippet
                   {| final_import_set := []; final_open_set := [];
                      final_set_option_set := []; final_other_set := [] |}
                   headers other) []) as (sets' & E').
    rewrite E'. cbn [bind app]. eauto.
Qed.

(** ** What the non-overlapping extraction leaves out *)

Lemma extract_loop_disjoint_complete (self : LeanCodeParser)
    (keys : option (list str)) (minp maxp : Z) (fuel : nat) :
  Forall nonblank (cleaned_lines self) ->
  forall i0 blocks,
    extract_loop fuel self keys false minp maxp i0 = Ret blocks ->
    forall i,
      i0 <= i -> i < length (cleaned_lines self) ->
      (exists b, In b blocks /\ covers b i)
      \/ get_block_from_lid self i keys = Ret None
      \/ (exists b, get_block_from_lid self i keys = Ret (Some b)
                    /\ proof_lines_ok minp maxp b = false).
Proof.
  intros Hnb. induction fuel as [|fuel IH]; intros i0 blocks;
    cbn [extract_loop];
    destruct (Nat.leb_spec (length (cleaned_lines self)) i0) as [Hlen|Hlen];
    try discriminate; try (intros _ i H1 H2; lia).
  cbn [negb].
  destruct (get_block_from_lid self i0 keys) as [[b0|]| |] eqn:G0;
    cbn [bind]; try discriminate.
  - destruct (proof_lines_ok minp maxp b0) eqn:Hok0.
    + destruct (extract_loop fuel self keys false minp maxp (blk_end b0 + 1))
        as [blocks'| |] eqn:R; cbn [bind]; try discriminate.
      intros [= <-] i Hi Hlt.
      destruct (get_block_from_lid_some _ _ _ _ Hnb G0) as (Hst & Hle & _).
      destruct (Nat.le_gt_cases i (blk_end b0)) as [Hin|Hout].
      * left. exists b0. split; [left; reflexivity|].
        unfold covers. lia.
      * destruct (IH _ _ R i (ltac:(lia)) Hlt) as [(b & HIn & Hc)|H];
          [|right; exact H].
        left. exists b. split; [right; exact HIn | exact Hc].
    + intros R i Hi Hlt. destruct (Nat.eq_dec i i0) as [->|Hne].
      * right. right. exists b0. auto.
      * apply (IH _ _ R i); lia.
  - intros R i Hi Hlt. destruct (Nat.eq_dec i i0) as [->|Hne].
    + right. left. exact G0.
    + apply (IH _ _ R i); lia.
Qed.

(** X22. The non-overlapping extraction leaves out no declaration that
    lies outside the blocks it keeps: every line index of the normalized
    text either lies in a returned block, or is no block start for the
    keys, or starts a block that the filter on proof lines rejects. *)
Theorem nonoverlapping_extraction_maximal (code : str)
    (keys : option (list str)) (minp maxp : Z) (blocks : list Block) :
  extract_all_blocks (new_parser code) keys false minp maxp = Ret blocks ->
  forall i,
    i < length (cleaned_lines (new_parser code)) ->
    (exists b, In b blocks /\ covers b i)
    \/ get_block_from_lid (new_parser code) i keys = Ret None
    \/ (exists b, get_block_from_lid (new_parser code) i keys = Ret (Some b)
                  /\ proof_lines_ok minp maxp b = false).
Proof.
  intros E i Hi. pose proof (cleaned_lines_nonblank code) as Hnb.
  apply (extract_loop_disjoint_complete _ keys minp maxp _ Hnb 0 blocks E i);
    [lia | exact Hi].
Qed.

Lemma nonoverlapping_extraction_maximal_witness :
  let code := lit "theorem t : P := by" ++ [nl] ++ lit "  have a : P := by"
              ++ [nl] ++ lit "    have b : Q := c" ++ [nl] ++ lit "  exact a" in
  exists blocks,
    extract_all_blocks (new_parser code) (Some [lit "have"]) false 0 100
    = Ret blocks
    /\ ((exists b, In b blocks /\ covers b 2)
        \/ get_block_from_lid (new_parser code) 2 (Some [lit "have"]) = Ret None
        \/ (exists b,
               get_block_from_lid (new_parser code) 2 (Some [lit "have"])
               = Ret (Some b)
               /\ proof_lines_ok 0 100 b = false)).
Proof.
  cbv zeta. eexists. split; [vm_compute; reflexivity|].
  apply (nonoverlapping_extraction_maximal
           (lit "theorem t : P := by" ++ [nl] ++ lit "  have a : P := by"
            ++ [nl] ++ lit "    have b : Q := c" ++ [nl] ++ lit "  exact a")
           (Some [lit "have"]) 0 100).
  - vm_compute. reflexivity.
  - vm_compute. lia.
Defined.

(** ** The bullet style of the classifier *)

(** X23. Under a bullet key the classifier fixes the name and the
    statement to ["."], and the style [dot_block] occurs under a bullet
    key only: a block info of style [dot_block] has a bullet key, the name
    ["."] and the statement ["."]. *)
Theorem dot_block_only_under_bullet_key (lines : list str) (key : str)
    (info : BlockInfo) :
  parse_block lines key = Ret info ->
  (In key DOT_KEYS ->
     name info = Some (lit ".") /\ statement info = lit ".")
  /\ (proof_style info = dot_block ->
        In key DOT_KEYS
        /\ name info = Some (lit ".") /\ statement info = lit ".").
Proof.
  unfold parse_block. destruct lines as [|line0 rest]; [discriminate|].
  remember (Py.startswith (lit "by")) as by_prefix eqn:Hby.
  destruct (Py.mem key DOT_KEYS) eqn:Hd.
  - apply mem_In in Hd. cbv beta iota zeta. intros [= <-].
    unfold name, statement, proof_style; cbv beta iota.
    split; auto.
  - assert (~ In key DOT_KEYS) as Hn.
    { intros HIn. apply mem_In in HIn. congruence. }
    destruct (extract_statement_and_proof_from_code _) as [[st pr]|];
      cbv beta iota zeta; intros [= <-];
      unfold name, statement, proof, proof_style; cbv beta iota;
      (split; [intros; contradiction|]).
    + destruct (by_prefix pr); [intros E; discriminate E|].
      destruct (nonempty pr); intros E; discriminate E.
    + destruct (by_prefix []); intros E; discriminate E.
Qed.

Lemma dot_block_only_under_bullet_key_witness :
  exists info,
    parse_block [lit "."; lit "  exact h"] (lit ".") = Ret info
    /\ proof_style info = dot_block
    /\ In (lit ".") DOT_KEYS
    /\ name info = Some (lit ".") /\ statement info = lit ".".
Proof.
  eexists. split; [vm_compute; reflexivity|].
  split; [reflexivity|].
  apply (dot_block_only_under_bullet_key [lit "."; lit "  exact h"] (lit ".")
           _ eq_refl).
  reflexivity.
Defined.
